(** * SimplifyInstruction: local folding of SIL instructions

    A shallow embedding of [lib/SILPasses/Utils/SimplifyInstruction.cpp] and
    the properties of [swift::simplifyInstruction].

    The IR itself (values, types, blocks, the instruction classes) is declared
    in headers that are not part of this development; it is modelled below as
    a read-only graph: a value is a handle, the function owns a total map from
    handles to their producing node, and pointer equality of the C++ code is
    equality of handles. *)

From Stdlib Require Import ZArith Lia.
From stdpp Require Import base decidable option list.

Local Open Scope nat_scope.

(** ** The IR data model *)

(** Modelled from the spec: [SILType] (swift/SIL/SILType.h is missing): an
    opaque identity with an equality test, no subtyping. *)
Inductive SILType : Type := TypeId (n : nat).

(** Modelled from the spec: [SILValue] (swift/SIL/SILValue.h is missing): an
    abstract handle to the result of one producing node; two handles are the
    same value exactly when they are equal. *)
Inductive SILValue : Type := Val (n : nat).

(** Modelled from the spec: a basic block is named by a handle, compared by
    identity like the [SILBasicBlock *] of the source. *)
Inductive BlockRef : Type := BB (n : nat).

(** Modelled from the spec: a discriminant tag ([EnumElementDecl *]), compared
    by identity. *)
Inductive EnumElementDecl : Type := Elt (n : nat).

#[global] Instance SILType_eq_dec : EqDecision SILType.
Proof. solve_decision. Defined.
#[global] Instance SILValue_eq_dec : EqDecision SILValue.
Proof. solve_decision. Defined.
#[global] Instance BlockRef_eq_dec : EqDecision BlockRef.
Proof. solve_decision. Defined.
#[global] Instance EnumElementDecl_eq_dec : EqDecision EnumElementDecl.
Proof. solve_decision. Defined.

(** Modelled from the spec: [CheckedCastKind] (declared outside this file);
    only [Downcast] is inspected by the simplifier. *)
Inductive CheckedCastKind : Type :=
| Downcast
| OtherCheckedCast (n : nat).

(** Modelled from the spec: the part of [llvm::Intrinsic::ID] the simplifier
    switches on; every other intrinsic is [other_intrinsic]. *)
Inductive IntrinsicID : Type :=
| not_intrinsic
| expect
| sadd_with_overflow
| uadd_with_overflow
| ssub_with_overflow
| usub_with_overflow
| smul_with_overflow
| umul_with_overflow
| other_intrinsic (n : nat).

(** Modelled from the spec: [BuiltinValueKind]; swift/AST/Builtins.def is
    missing, the six entries of its BUILTIN_BINARY_OPERATION_WITH_OVERFLOW
    table are the signed and unsigned add, sub and mul primitives. *)
Inductive BuiltinValueKind : Type :=
| SAddOver
| UAddOver
| SSubOver
| USubOver
| SMulOver
| UMulOver
| OtherBuiltin (n : nat).

#[global] Instance CheckedCastKind_eq_dec : EqDecision CheckedCastKind.
Proof. solve_decision. Defined.
#[global] Instance IntrinsicID_eq_dec : EqDecision IntrinsicID.
Proof. solve_decision. Defined.
#[global] Instance BuiltinValueKind_eq_dec : EqDecision BuiltinValueKind.
Proof. solve_decision. Defined.

(** What [BuiltinFunctionRefInst::getIntrinsicInfo] and [getBuiltinInfo]
    report about a builtin callee. *)
Record BuiltinRef : Type := mkBuiltinRef {
  IntrinsicInfoID : IntrinsicID;
  BuiltinInfoID : BuiltinValueKind
}.

(** Modelled from the spec: the instruction tags, each with its operands and
    tag-specific fields.  The constructors carry the names of the C++ classes
    that [dyn_cast] tests for.  [OtherInst] stands for every tag the
    simplifier has no rule for and never looks through; [SILArgument] is a
    value that no instruction produces. *)
Inductive ValueKind : Type :=
| StructInst (Elements : list SILValue)
| TupleInst (Elements : list SILValue)
| TupleExtractInst (Operand : SILValue) (FieldNo : nat)
| StructExtractInst (Operand : SILValue) (FieldNo : nat)
| EnumInst (Element : EnumElementDecl) (Payload : option SILValue)
| UncheckedEnumDataInst (Operand : SILValue) (Element : EnumElementDecl)
| AddressToPointerInst (Operand : SILValue)
| PointerToAddressInst (Operand : SILValue)
| RefToRawPointerInst (Operand : SILValue)
| RawPointerToRefInst (Operand : SILValue)
| UnconditionalCheckedCastInst (CastKind : CheckedCastKind) (Operand : SILValue)
| UncheckedRefCastInst (Operand : SILValue)
| UncheckedAddrCastInst (Operand : SILValue)
| UpcastInst (Operand : SILValue)
| ApplyInst (Callee : SILValue) (Arguments : list SILValue)
| BuiltinFunctionRefInst (Info : BuiltinRef)
| IntegerLiteralInst (Value : Z)
| SwitchEnumInst (Operand : SILValue) (Cases : list (EnumElementDecl * BlockRef))
| OtherInst (Operands : list SILValue)
| SILArgument.

(** A node of the graph: its tag and the declared type of its result. *)
Record ValueBase : Type := mkValueBase {
  getKind : ValueKind;
  getType : SILType
}.

(** Modelled from the spec: a block with its statically known predecessors
    (one entry per incoming edge) and its terminator. *)
Record SILBasicBlock : Type := mkSILBasicBlock {
  Preds : list BlockRef;
  getTerminator : SILValue
}.

(** The read-only graph the simplifier looks at. *)
Record SILFunction : Type := mkSILFunction {
  getDef : SILValue -> ValueBase;
  getParent : SILValue -> BlockRef;
  getBlock : BlockRef -> SILBasicBlock
}.

(** The result of a C++ call that may stop in [assert], [llvm_unreachable]
    or an out-of-range [ArrayRef] access instead of returning. *)
Inductive Outcome (A : Type) : Type :=
| Returns (a : A)
| Aborts.
Arguments Returns {A} a.
Arguments Aborts {A}.

(** [SILValue()] is [None]. *)
Definition Simplified : Type := Outcome (option SILValue).

Section Simplifier.

Variable F : SILFunction.

(** [V.getType()] for a value [V]. *)
Definition typeOf (V : SILValue) : SILType := getType (getDef F V).

Definition kindOf (V : SILValue) : ValueKind := getKind (getDef F V).

(** *** [dyn_cast<...>] on a value: the typed view of its producer *)

Definition dyn_cast_StructExtractInst (V : SILValue) : option (SILValue * nat) :=
  match kindOf V with
  | StructExtractInst Op n => Some (Op, n)
  | _ => None
  end.

Definition dyn_cast_TupleExtractInst (V : SILValue) : option (SILValue * nat) :=
  match kindOf V with
  | TupleExtractInst Op n => Some (Op, n)
  | _ => None
  end.

Definition dyn_cast_IntegerLiteralInst (V : SILValue) : option Z :=
  match kindOf V with
  | IntegerLiteralInst n => Some n
  | _ => None
  end.

(** Modelled from the spec: [m_Zero] and [m_One] of swift/SIL/PatternMatch.h
    (missing): the value is an integer literal whose constant is 0, resp. 1. *)
Definition m_Zero (V : SILValue) : bool :=
  match dyn_cast_IntegerLiteralInst V with
  | Some n => Z.eqb n 0
  | None => false
  end.

Definition m_One (V : SILValue) : bool :=
  match dyn_cast_IntegerLiteralInst V with
  | Some n => Z.eqb n 1
  | None => false
  end.

(** Modelled from the spec: [SILBasicBlock::getSinglePredecessor]: the
    predecessor when there is exactly one, null otherwise. *)
Definition getSinglePredecessor (B : BlockRef) : option BlockRef :=
  match Preds (getBlock F B) with
  | [P] => Some P
  | _ => None
  end.

(** Modelled from the spec: [SwitchEnumInst::getCaseDestination]: the target
    block registered for a discriminant tag. *)
Fixpoint getCaseDestination (Cases : list (EnumElementDecl * BlockRef))
    (D : EnumElementDecl) : option BlockRef :=
  match Cases with
  | [] => None
  | (E, Dest) :: Rest =>
      if decide (E = D) then Some Dest else getCaseDestination Rest D
  end.

(** Modelled from the spec: [getLLVMIntrinsicIDForBuiltinWithOverflow],
    defined on the six overflow builtins of Builtins.def. *)
Definition getLLVMIntrinsicIDForBuiltinWithOverflow (ID : BuiltinValueKind)
    : option IntrinsicID :=
  match ID with
  | SAddOver => Some sadd_with_overflow
  | UAddOver => Some uadd_with_overflow
  | SSubOver => Some ssub_with_overflow
  | USubOver => Some usub_with_overflow
  | SMulOver => Some smul_with_overflow
  | UMulOver => Some umul_with_overflow
  | OtherBuiltin _ => None
  end.

(** ** The visitor *)

(** The loop of [visitStructInst] and [visitTupleInst] from index [i] on:
    every remaining operand must be an extract ([cast] is the [dyn_cast] of
    the matching extract class) from [Src], the source of the first extract,
    at the field equal to its position. *)
Fixpoint checkExtracts (cast : SILValue -> option (SILValue * nat))
    (Src : SILValue) (i : nat) (Ops : list SILValue) : option SILValue :=
  match Ops with
  | [] => Some Src
  | Op :: Rest =>
      match cast Op with
      | None => None
      | Some (ExOp, ExNo) =>
          if negb (bool_decide (Src = ExOp)) then None
          else if negb (bool_decide (ExNo = i)) then None
          else checkExtracts cast Src (S i) Rest
      end
  end.

Definition visitStructInst (SI : SILValue) (Ops : list SILValue) : Simplified :=
  if bool_decide (length Ops < 1) then Returns None
  else
    match Ops !! 0 with
    | None => Returns None
    | Some Op0 =>
        match dyn_cast_StructExtractInst Op0 with
        | Some (Ex0Op, _) =>
            if negb (bool_decide (typeOf SI = typeOf Ex0Op)) then Returns None
            else Returns (checkExtracts dyn_cast_StructExtractInst Ex0Op 0 Ops)
        | None => Returns None
        end
    end.

Definition visitTupleInst (TI : SILValue) (Ops : list SILValue) : Simplified :=
  if bool_decide (length Ops < 1) then Returns None
  else
    match Ops !! 0 with
    | None => Returns None
    | Some Op0 =>
        match dyn_cast_TupleExtractInst Op0 with
        | Some (Ex0Op, _) =>
            if negb (bool_decide (typeOf TI = typeOf Ex0Op)) then Returns None
            else Returns (checkExtracts dyn_cast_TupleExtractInst Ex0Op 0 Ops)
        | None => Returns None
        end
    end.

(** [simplifyBinaryWithOverflow]: [assert(Args.size() >= 2)], and the
    [default:] of the switch is [llvm_unreachable]. *)
Definition simplifyBinaryWithOverflow (Args : list SILValue) (ID : IntrinsicID)
    : Simplified :=
  match Args with
  | Op1 :: Op2 :: _ =>
      let IntOp1 := dyn_cast_IntegerLiteralInst Op1 in
      let IntOp2 := dyn_cast_IntegerLiteralInst Op2 in
      if negb (bool_decide (is_Some IntOp1)) && negb (bool_decide (is_Some IntOp2))
      then Returns None
      else
        match ID with
        | sadd_with_overflow | uadd_with_overflow =>
            if m_Zero Op1 then Returns (Some Op2)
            else if m_Zero Op2 then Returns (Some Op1)
            else Returns None
        | ssub_with_overflow | usub_with_overflow =>
            if m_Zero Op2 then Returns (Some Op1)
            else Returns None
        | smul_with_overflow | umul_with_overflow =>
            if m_Zero Op1 then Returns (Some Op1)
            else if m_Zero Op2 then Returns (Some Op2)
            else if m_One Op1 then Returns (Some Op2)
            else if m_One Op2 then Returns (Some Op1)
            else Returns None
        | _ => Aborts
        end
  | _ => Aborts
  end.

Definition simplifyOverflowBuiltin (Args : list SILValue) (FR : BuiltinRef)
    : Simplified :=
  match IntrinsicInfoID FR with
  | not_intrinsic =>
      match getLLVMIntrinsicIDForBuiltinWithOverflow (BuiltinInfoID FR) with
      | Some ID => simplifyBinaryWithOverflow Args ID
      | None => Returns None
      end
  | sadd_with_overflow | uadd_with_overflow
  | ssub_with_overflow | usub_with_overflow
  | smul_with_overflow | umul_with_overflow =>
      simplifyBinaryWithOverflow Args (IntrinsicInfoID FR)
  | _ => Returns None
  end.

(** [TheTuple->getElements()[TEI->getFieldNo()]] is an [ArrayRef] access: it
    asserts that the index is in range. *)
Definition visitTupleExtractInst (Op : SILValue) (FieldNo : nat) : Simplified :=
  match kindOf Op with
  | TupleInst Elements =>
      match Elements !! FieldNo with
      | Some V => Returns (Some V)
      | None => Aborts
      end
  | ApplyInst Callee Args =>
      if bool_decide (FieldNo = 0) then
        match kindOf Callee with
        | BuiltinFunctionRefInst BFRI => simplifyOverflowBuiltin Args BFRI
        | _ => Returns None
        end
      else Returns None
  | _ => Returns None
  end.

(** [Struct->getFieldValue(SEI->getField())]: the operand of the struct at
    the position of the extracted field, which must be a field of it. *)
Definition visitStructExtractInst (Op : SILValue) (FieldNo : nat) : Simplified :=
  match kindOf Op with
  | StructInst Elements =>
      match Elements !! FieldNo with
      | Some V => Returns (Some V)
      | None => Aborts
      end
  | _ => Returns None
  end.

Definition visitUncheckedEnumDataInst (Op : SILValue) (Element : EnumElementDecl)
    : Simplified :=
  match kindOf Op with
  | EnumInst EIElement Payload =>
      if negb (bool_decide (EIElement = Element)) then Returns None
      else
        match Payload with
        | Some P => Returns (Some P)
        | None => Aborts
        end
  | _ => Returns None
  end.

Definition visitEnumInst (EI : SILValue) (Element : EnumElementDecl)
    (Payload : option SILValue) : Simplified :=
  if bool_decide (is_Some Payload) then Returns None
  else
    let B := getParent F EI in
    match getSinglePredecessor B with
    | None => Returns None
    | Some Pred =>
        match kindOf (getTerminator (getBlock F Pred)) with
        | SwitchEnumInst SEIOp Cases =>
            if negb (bool_decide (typeOf EI = typeOf SEIOp)) then Returns None
            else if bool_decide (Some B = getCaseDestination Cases Element)
            then Returns (Some SEIOp)
            else Returns None
        | _ => Returns None
        end
    end.

(** [PTAI->getType() == ATPI->getOperand().getType()]: the declared type of
    the inner cast against the type of the operand value. *)
Definition visitAddressToPointerInst (ATPI : SILValue) (Op : SILValue) : Simplified :=
  match getDef F Op with
  | mkValueBase (PointerToAddressInst PTAIOp) PTAIType =>
      if bool_decide (PTAIType = typeOf Op) then Returns (Some PTAIOp)
      else Returns None
  | _ => Returns None
  end.

Definition visitPointerToAddressInst (PTAI : SILValue) (Op : SILValue) : Simplified :=
  match kindOf Op with
  | AddressToPointerInst ATPIOp =>
      if bool_decide (typeOf ATPIOp = typeOf PTAI) then Returns (Some ATPIOp)
      else Returns None
  | _ => Returns None
  end.

Definition visitRefToRawPointerInst (Op : SILValue) : Simplified :=
  match kindOf Op with
  | RawPointerToRefInst RawToRefOp => Returns (Some RawToRefOp)
  | _ => Returns None
  end.

Definition visitUnconditionalCheckedCastInst (UCCI : SILValue)
    (Kind : CheckedCastKind) (Op : SILValue) : Simplified :=
  if bool_decide (Kind = Downcast) then
    match getDef F Op with
    | mkValueBase (UpcastInst UpcastOp) UpcastType =>
        if bool_decide (typeOf Op = UpcastType)
           && bool_decide (typeOf UCCI = typeOf UpcastOp)
        then Returns (Some UpcastOp)
        else Returns None
    | _ => Returns None
    end
  else Returns None.

(** The three tests of the source run in sequence; a cast-of-cast test that
    fails falls through to the self-cast test on the operand's own type. *)
Definition visitUncheckedRefCastInst (OPRI : SILValue) (Op : SILValue) : Simplified :=
  match kindOf Op with
  | UncheckedRefCastInst ROPIOp =>
      if bool_decide (typeOf ROPIOp = typeOf OPRI) then Returns (Some ROPIOp)
      else if bool_decide (typeOf Op = typeOf OPRI) then Returns (Some Op)
      else Returns None
  | UpcastInst UIOp =>
      if bool_decide (typeOf UIOp = typeOf OPRI) then Returns (Some UIOp)
      else if bool_decide (typeOf Op = typeOf OPRI) then Returns (Some Op)
      else Returns None
  | _ =>
      if bool_decide (typeOf Op = typeOf OPRI) then Returns (Some Op)
      else Returns None
  end.

(** As above: the cast-of-cast test, then the self-cast test. *)
Definition visitUncheckedAddrCastInst (UACI : SILValue) (Op : SILValue) : Simplified :=
  match kindOf Op with
  | UncheckedAddrCastInst OtherOp =>
      if bool_decide (typeOf OtherOp = typeOf UACI) then Returns (Some OtherOp)
      else if bool_decide (typeOf Op = typeOf UACI) then Returns (Some Op)
      else Returns None
  | _ =>
      if bool_decide (typeOf Op = typeOf UACI) then Returns (Some Op)
      else Returns None
  end.

Definition visitUpcastInst (UI : SILValue) (Op : SILValue) : Simplified :=
  match kindOf Op with
  | UncheckedRefCastInst URCIOp =>
      if bool_decide (typeOf URCIOp = typeOf UI) then Returns (Some URCIOp)
      else Returns None
  | _ => Returns None
  end.

(** [AI->getArgument(0)] asserts that the call has an argument; the returned
    [Literal] is that argument. *)
Definition visitApplyInst (Callee : SILValue) (Args : list SILValue) : Simplified :=
  match kindOf Callee with
  | BuiltinFunctionRefInst BFRI =>
      if bool_decide (IntrinsicInfoID BFRI = expect) then
        match Args !! 0 with
        | None => Aborts
        | Some Arg0 =>
            match dyn_cast_IntegerLiteralInst Arg0 with
            | Some _ => Returns (Some Arg0)
            | None => Returns None
            end
        end
      else Returns None
  | _ => Returns None
  end.

(** [visitSILInstruction], the default of the visitor. *)
Definition visitSILInstruction (I : SILValue) : Simplified := Returns None.

(** [InstSimplifier().visit(I)]: dispatch on the tag of [I]. *)
Definition visit (I : SILValue) : Simplified :=
  match kindOf I with
  | StructInst Ops => visitStructInst I Ops
  | TupleInst Ops => visitTupleInst I Ops
  | TupleExtractInst Op n => visitTupleExtractInst Op n
  | StructExtractInst Op n => visitStructExtractInst Op n
  | EnumInst E P => visitEnumInst I E P
  | UncheckedEnumDataInst Op E => visitUncheckedEnumDataInst Op E
  | AddressToPointerInst Op => visitAddressToPointerInst I Op
  | PointerToAddressInst Op => visitPointerToAddressInst I Op
  | RefToRawPointerInst Op => visitRefToRawPointerInst Op
  | UnconditionalCheckedCastInst K Op => visitUnconditionalCheckedCastInst I K Op
  | UncheckedRefCastInst Op => visitUncheckedRefCastInst I Op
  | UncheckedAddrCastInst Op => visitUncheckedAddrCastInst I Op
  | UpcastInst Op => visitUpcastInst I Op
  | ApplyInst Callee Args => visitApplyInst Callee Args
  | RawPointerToRefInst _ | BuiltinFunctionRefInst _ | IntegerLiteralInst _
  | SwitchEnumInst _ _ | OtherInst _ | SILArgument => visitSILInstruction I
  end.

Definition simplifyInstruction (I : SILValue) : Simplified := visit I.

End Simplifier.

Arguments typeOf F V : simpl never.
Arguments kindOf F V : simpl never.

(** ** Vocabulary of the properties *)

(** The three families of overflow primitives. *)
Inductive OverflowOp : Type := OvAdd | OvSub | OvMul.

(** The family a builtin callee designates, through its LLVM intrinsic or,
    when it is not an intrinsic, through its builtin kind; [None] for every
    other callee. *)
Definition overflowOpOf (FR : BuiltinRef) : option OverflowOp :=
  match IntrinsicInfoID FR with
  | sadd_with_overflow | uadd_with_overflow => Some OvAdd
  | ssub_with_overflow | usub_with_overflow => Some OvSub
  | smul_with_overflow | umul_with_overflow => Some OvMul
  | not_intrinsic =>
      match BuiltinInfoID FR with
      | SAddOver | UAddOver => Some OvAdd
      | SSubOver | USubOver => Some OvSub
      | SMulOver | UMulOver => Some OvMul
      | OtherBuiltin _ => None
      end
  | expect | other_intrinsic _ => None
  end.

(** [x] is the operand opposite to one that satisfies [P]. *)
Definition otherOperandOf (P : SILValue -> bool) (Op1 Op2 x : SILValue) : Prop :=
  (P Op1 = true /\ x = Op2) \/ (P Op2 = true /\ x = Op1).

(** The body of [simplifyBinaryWithOverflow] once the early exit for two
    non-literal operands is folded into the pattern tests: a pattern that
    matches implies that its operand is a literal. *)
Definition identityFold (F : SILFunction) (op : OverflowOp) (Op1 Op2 : SILValue) : option SILValue :=
  match op with
  | OvAdd => if m_Zero F Op1 then Some Op2
             else if m_Zero F Op2 then Some Op1 else None
  | OvSub => if m_Zero F Op2 then Some Op1 else None
  | OvMul => if m_Zero F Op1 then Some Op1
             else if m_Zero F Op2 then Some Op2
             else if m_One F Op1 then Some Op2
             else if m_One F Op2 then Some Op1 else None
  end.

(** The two product types: each construct tag with its own extract tag. *)
Inductive Aggregate : Type := Struct | Tuple.

Definition construct (a : Aggregate) (Ops : list SILValue) : ValueKind :=
  match a with
  | Struct => StructInst Ops
  | Tuple => TupleInst Ops
  end.

Definition extract (a : Aggregate) (S : SILValue) (i : nat) : ValueKind :=
  match a with
  | Struct => StructExtractInst S i
  | Tuple => TupleExtractInst S i
  end.

Definition dyn_cast_extract (a : Aggregate) (F : SILFunction) (V : SILValue)
    : option (SILValue * nat) :=
  match a with
  | Struct => dyn_cast_StructExtractInst F V
  | Tuple => dyn_cast_TupleExtractInst F V
  end.

(** Operand [i] of the construct is exactly [extract S i], at every
    position. *)
Definition rebuilds (F : SILFunction) (a : Aggregate) (S : SILValue)
    (Ops : list SILValue) : Prop :=
  forall i Op, Ops !! i = Some Op -> kindOf F Op = extract a S i.

(** The operands of a node, in order. *)
Definition getOperands (K : ValueKind) : list SILValue :=
  match K with
  | StructInst Es | TupleInst Es | OtherInst Es => Es
  | TupleExtractInst Op _ | StructExtractInst Op _
  | UncheckedEnumDataInst Op _
  | AddressToPointerInst Op | PointerToAddressInst Op
  | RefToRawPointerInst Op | RawPointerToRefInst Op
  | UnconditionalCheckedCastInst _ Op
  | UncheckedRefCastInst Op | UncheckedAddrCastInst Op | UpcastInst Op
  | SwitchEnumInst Op _ => [Op]
  | EnumInst _ P => option_list P
  | ApplyInst Callee Args => Callee :: Args
  | BuiltinFunctionRefInst _ | IntegerLiteralInst _ | SILArgument => []
  end.

(** The tags [InstSimplifier] declares no [visit...] method for. *)
Definition hasNoRule (K : ValueKind) : bool :=
  match K with
  | RawPointerToRefInst _ | BuiltinFunctionRefInst _ | IntegerLiteralInst _
  | SwitchEnumInst _ _ | OtherInst _ | SILArgument => true
  | _ => false
  end.

(** The IR invariants the visitors assert instead of testing: a field
    extract of a construct names an existing operand, a payload extract of a
    sum construct with the same tag finds a payload, an overflow primitive
    reached through a field-0 extract has its two operands, and a value hint
    has its first argument. *)
Definition meetsAssertions (F : SILFunction) (I : SILValue) : bool :=
  match kindOf F I with
  | TupleExtractInst Op n =>
      match kindOf F Op with
      | TupleInst Es => bool_decide (n < length Es)
      | ApplyInst Callee Args =>
          match kindOf F Callee with
          | BuiltinFunctionRefInst FR =>
              if bool_decide (n = 0) && bool_decide (is_Some (overflowOpOf FR))
              then bool_decide (2 <= length Args)
              else true
          | _ => true
          end
      | _ => true
      end
  | StructExtractInst Op n =>
      match kindOf F Op with
      | StructInst Es => bool_decide (n < length Es)
      | _ => true
      end
  | UncheckedEnumDataInst Op E =>
      match kindOf F Op with
      | EnumInst E' P =>
          if bool_decide (E' = E) then bool_decide (is_Some P) else true
      | _ => true
      end
  | ApplyInst Callee Args =>
      match kindOf F Callee with
      | BuiltinFunctionRefInst FR =>
          if bool_decide (IntrinsicInfoID FR = expect)
          then bool_decide (1 <= length Args)
          else true
      | _ => true
      end
  | _ => true
  end.

(** Where a returned value can come from. *)
Definition isOperandOf (F : SILFunction) (V I : SILValue) : Prop :=
  In V (getOperands (kindOf F I)).

Definition isOperandOfOperandOf (F : SILFunction) (V I : SILValue) : Prop :=
  exists W, isOperandOf F W I /\ isOperandOf F V W.

Definition isPredecessorScrutinee (F : SILFunction) (V I : SILValue) : Prop :=
  exists tag P Cases,
    kindOf F I = EnumInst tag None /\
    getSinglePredecessor F (getParent F I) = Some P /\
    kindOf F (getTerminator (getBlock F P)) = SwitchEnumInst V Cases.

(** Definitions precede their uses: along [rank], every operand of a node is
    defined before the node. *)
Definition defsBeforeUses (F : SILFunction) (rank : SILValue -> nat) : Prop :=
  forall I V, isOperandOf F V I -> rank V < rank I.

Definition rankOf (V : SILValue) : nat :=
  match V with Val n => n end.

(** The tags whose rule compares the declared type of the instruction with
    the type of the value it returns. *)
Definition typeGuarded (K : ValueKind) : bool :=
  match K with
  | StructInst _ | TupleInst _ | EnumInst _ _ | PointerToAddressInst _
  | UnconditionalCheckedCastInst _ _ | UncheckedRefCastInst _
  | UncheckedAddrCastInst _ | UpcastInst _ => true
  | _ => false
  end.

(** The tags whose rule indexes or asserts. *)
Definition mayAssert (K : ValueKind) : bool :=
  match K with
  | TupleExtractInst _ _ | StructExtractInst _ _
  | UncheckedEnumDataInst _ _ | ApplyInst _ _ => true
  | _ => false
  end.

(** The part of the graph a rule for [I] can read: [I], its operands and
    their operands. *)
Definition inScope (F : SILFunction) (I V : SILValue) : Prop :=
  V = I \/ isOperandOf F V I \/ isOperandOfOperandOf F V I.

(** Two graphs agree around [I]: on the nodes in scope and, only when [I] is
    a sum construct without payload, on the block of [I], that block's
    predecessor list and, if there is a single predecessor, on which value
    terminates it, on the terminator's node and on the nodes of the
    terminator's operands. *)
Definition agreeAround (F G : SILFunction) (I : SILValue) : Prop :=
  (forall V, inScope F I V -> getDef F V = getDef G V) /\
  (forall tag, kindOf F I = EnumInst tag None ->
     getParent F I = getParent G I /\
     Preds (getBlock F (getParent F I)) = Preds (getBlock G (getParent F I)) /\
     forall P, getSinglePredecessor F (getParent F I) = Some P ->
       getTerminator (getBlock F P) = getTerminator (getBlock G P) /\
       getDef F (getTerminator (getBlock F P)) =
         getDef G (getTerminator (getBlock F P)) /\
       forall V, isOperandOf F V (getTerminator (getBlock F P)) ->
                 getDef F V = getDef G V).

(** ** Concrete graphs *)

(** A graph given by the list of its nodes: value [n] is produced by the
    [n]-th node, every other handle is an argument. *)
Definition nodesOf (Nodes : list ValueBase) (V : SILValue) : ValueBase :=
  match V with
  | Val n => default (mkValueBase SILArgument (TypeId 0)) (Nodes !! n)
  end.

Definition parentsOf (Parents : list BlockRef) (V : SILValue) : BlockRef :=
  match V with
  | Val n => default (BB 0) (Parents !! n)
  end.

Definition blocksOf (Blocks : list SILBasicBlock) (B : BlockRef) : SILBasicBlock :=
  match B with
  | BB n => default (mkSILBasicBlock [] (Val 0)) (Blocks !! n)
  end.

(** A function of one block without predecessors. *)
Definition straightLine (Nodes : list ValueBase) : SILFunction :=
  mkSILFunction (nodesOf Nodes) (fun _ => BB 0)
                (blocksOf [mkSILBasicBlock [] (Val 0)]).

Module Examples.

Definition Int64 : SILType := TypeId 1.
Definition RawPointer : SILType := TypeId 2.
Definition AddrOfInt64 : SILType := TypeId 3.
Definition NativeObject : SILType := TypeId 4.
Definition OverflowPair : SILType := TypeId 5.
Definition FnType : SILType := TypeId 6.
Definition OptionalInt : SILType := TypeId 7.
Definition Pair : SILType := TypeId 8.

(** [%2 = address_to_pointer (pointer_to_address %0)] whose declared type
    is not the type of [%0]. *)
Definition castMismatch : SILFunction := straightLine
  [ mkValueBase SILArgument NativeObject;
    mkValueBase (PointerToAddressInst (Val 0)) AddrOfInt64;
    mkValueBase (AddressToPointerInst (Val 1)) RawPointer ].

(** The mirrored chain [%2 = pointer_to_address (address_to_pointer %0)]
    with a declared type that is not the type of [%0]. *)
Definition castMismatchMirrored : SILFunction := straightLine
  [ mkValueBase SILArgument NativeObject;
    mkValueBase (AddressToPointerInst (Val 0)) RawPointer;
    mkValueBase (PointerToAddressInst (Val 1)) AddrOfInt64 ].

(** [%3 = apply sadd_with_overflow(%0 = 0, %1)], [%4 = tuple_extract %3, 0],
    [%5 = tuple_extract %3, 1]. *)
Definition addZero : SILFunction := straightLine
  [ mkValueBase (IntegerLiteralInst 0) Int64;
    mkValueBase SILArgument Int64;
    mkValueBase (BuiltinFunctionRefInst
                   (mkBuiltinRef sadd_with_overflow (OtherBuiltin 0))) FnType;
    mkValueBase (ApplyInst (Val 2) [Val 0; Val 1]) OverflowPair;
    mkValueBase (TupleExtractInst (Val 3) 0) Int64;
    mkValueBase (TupleExtractInst (Val 3) 1) Int64 ].

(** [%3 = apply smul_over(%0, %1 = 0)] through the builtin table, and its
    field-0 extract [%4]. *)
Definition mulZero : SILFunction := straightLine
  [ mkValueBase SILArgument Int64;
    mkValueBase (IntegerLiteralInst 0) Int64;
    mkValueBase (BuiltinFunctionRefInst (mkBuiltinRef not_intrinsic SMulOver)) FnType;
    mkValueBase (ApplyInst (Val 2) [Val 0; Val 1]) OverflowPair;
    mkValueBase (TupleExtractInst (Val 3) 0) Int64 ].

(** [%3 = apply uadd_with_overflow(%0 = 2, %1 = 3)] and its field-0
    extract [%4]. *)
Definition addTwoThree : SILFunction := straightLine
  [ mkValueBase (IntegerLiteralInst 2) Int64;
    mkValueBase (IntegerLiteralInst 3) Int64;
    mkValueBase (BuiltinFunctionRefInst
                   (mkBuiltinRef uadd_with_overflow (OtherBuiltin 0))) FnType;
    mkValueBase (ApplyInst (Val 2) [Val 0; Val 1]) OverflowPair;
    mkValueBase (TupleExtractInst (Val 3) 0) Int64 ].

(** [%1 = enum #some, %0], [%2 = unchecked_enum_data %1, #some],
    [%3 = unchecked_enum_data %1, #none]. *)
Definition enumPayload : SILFunction := straightLine
  [ mkValueBase SILArgument Int64;
    mkValueBase (EnumInst (Elt 1) (Some (Val 0))) OptionalInt;
    mkValueBase (UncheckedEnumDataInst (Val 1) (Elt 1)) Int64;
    mkValueBase (UncheckedEnumDataInst (Val 1) (Elt 0)) Int64 ].

(** [%0 = enum #none] without payload and
    [%1 = unchecked_enum_data %0, #none]. *)
Definition enumNoPayload : SILFunction := straightLine
  [ mkValueBase (EnumInst (Elt 0) None) OptionalInt;
    mkValueBase (UncheckedEnumDataInst (Val 0) (Elt 0)) Int64 ].

(** [%3 = struct (struct_extract %0, 0) (struct_extract %0, 1)] and the
    reordered [%4 = struct (struct_extract %0, 1) (struct_extract %0, 0)]. *)
Definition rebuild : SILFunction := straightLine
  [ mkValueBase SILArgument Pair;
    mkValueBase (StructExtractInst (Val 0) 0) Int64;
    mkValueBase (StructExtractInst (Val 0) 1) Int64;
    mkValueBase (StructInst [Val 1; Val 2]) Pair;
    mkValueBase (StructInst [Val 2; Val 1]) Pair ].

(** bb0: [switch_enum %0, case #none: bb1, case #some: bb2];
    bb1: [%2 = enum #none];  bb2: [%4 = enum #some, %3]. *)
Definition switchThenEnum : SILFunction :=
  mkSILFunction
    (nodesOf [ mkValueBase SILArgument OptionalInt;
               mkValueBase (SwitchEnumInst (Val 0) [(Elt 0, BB 1); (Elt 1, BB 2)])
                           OptionalInt;
               mkValueBase (EnumInst (Elt 0) None) OptionalInt;
               mkValueBase SILArgument Int64;
               mkValueBase (EnumInst (Elt 1) (Some (Val 3))) OptionalInt;
               mkValueBase (OtherInst []) OptionalInt ])
    (parentsOf [BB 0; BB 0; BB 1; BB 2; BB 2; BB 1])
    (blocksOf [ mkSILBasicBlock [] (Val 1);
                mkSILBasicBlock [BB 0] (Val 5);
                mkSILBasicBlock [BB 0] (Val 5) ]).

(** The same blocks, with bb1 also reached from bb2. *)
Definition switchThenEnumJoin : SILFunction :=
  mkSILFunction
    (getDef switchThenEnum)
    (getParent switchThenEnum)
    (blocksOf [ mkSILBasicBlock [] (Val 1);
                mkSILBasicBlock [BB 0; BB 2] (Val 5);
                mkSILBasicBlock [BB 0] (Val 5) ]).

Definition Sub : SILType := TypeId 9.
Definition Base : SILType := TypeId 10.

(** Cast chains over [%0 : $RawPointer] and [%3 : $Sub]:
    [%2 = ref_to_raw_pointer (raw_pointer_to_ref %0)],
    [%5 = unchecked_ref_cast (upcast %3) to $Sub],
    [%6 = unconditional_checked_cast downcast (upcast %3) to $Sub],
    [%7 = unchecked_ref_cast %3 to $Sub] (a self cast),
    [%9 = upcast (unchecked_ref_cast %3 to $Base) to $Sub],
    [%10 = unchecked_ref_cast (upcast %3) to $Base] (only the self cast
    applies), [%11 = unchecked_ref_cast %3 to $Base] (nothing applies),
    [%13 = unchecked_addr_cast (unchecked_addr_cast %0 to $*Int64) to
    $RawPointer], [%15 = pointer_to_address (address_to_pointer %14)] with
    equal types. *)
Definition casts : SILFunction := straightLine
  [ mkValueBase SILArgument RawPointer;
    mkValueBase (RawPointerToRefInst (Val 0)) NativeObject;
    mkValueBase (RefToRawPointerInst (Val 1)) RawPointer;
    mkValueBase SILArgument Sub;
    mkValueBase (UpcastInst (Val 3)) Base;
    mkValueBase (UncheckedRefCastInst (Val 4)) Sub;
    mkValueBase (UnconditionalCheckedCastInst Downcast (Val 4)) Sub;
    mkValueBase (UncheckedRefCastInst (Val 3)) Sub;
    mkValueBase (UncheckedRefCastInst (Val 3)) Base;
    mkValueBase (UpcastInst (Val 8)) Sub;
    mkValueBase (UncheckedRefCastInst (Val 4)) Base;
    mkValueBase (UncheckedRefCastInst (Val 3)) Base;
    mkValueBase (UncheckedAddrCastInst (Val 0)) AddrOfInt64;
    mkValueBase (UncheckedAddrCastInst (Val 12)) RawPointer;
    mkValueBase SILArgument AddrOfInt64;
    mkValueBase (AddressToPointerInst (Val 14)) RawPointer;
    mkValueBase (PointerToAddressInst (Val 15)) AddrOfInt64 ].

(** [%3 = apply expect(%0 = 1, %1)] and a tuple with its extracts:
    [%4 = tuple (%0, %1)], [%5 = tuple_extract %4, 1],
    [%6 = tuple_extract %4, 2] (out of range),
    [%7 = tuple_extract %3, 0], [%8 = struct_extract %4, 0]. *)
Definition hintAndTuple : SILFunction := straightLine
  [ mkValueBase (IntegerLiteralInst 1) Int64;
    mkValueBase SILArgument Int64;
    mkValueBase (BuiltinFunctionRefInst (mkBuiltinRef expect SAddOver)) FnType;
    mkValueBase (ApplyInst (Val 2) [Val 0; Val 1]) Int64;
    mkValueBase (TupleInst [Val 0; Val 1]) Pair;
    mkValueBase (TupleExtractInst (Val 4) 1) Int64;
    mkValueBase (TupleExtractInst (Val 4) 2) Int64;
    mkValueBase (TupleExtractInst (Val 3) 0) Int64;
    mkValueBase (StructExtractInst (Val 4) 0) Int64 ].

(** The same addition in both operand orders, once through the signed
    intrinsic and once through the unsigned builtin:
    [%3 = apply sadd_with_overflow(%0 = 0, %1)], [%4 = tuple_extract %3, 0],
    [%6 = apply uadd_over(%1, %0)], [%7 = tuple_extract %6, 0],
    [%8 = apply uadd_over(%0, %1)], [%9 = tuple_extract %8, 0]. *)
Definition addBothOrders : SILFunction := straightLine
  [ mkValueBase (IntegerLiteralInst 0) Int64;
    mkValueBase SILArgument Int64;
    mkValueBase (BuiltinFunctionRefInst
                   (mkBuiltinRef sadd_with_overflow (OtherBuiltin 0))) FnType;
    mkValueBase (ApplyInst (Val 2) [Val 0; Val 1]) OverflowPair;
    mkValueBase (TupleExtractInst (Val 3) 0) Int64;
    mkValueBase (BuiltinFunctionRefInst (mkBuiltinRef not_intrinsic UAddOver)) FnType;
    mkValueBase (ApplyInst (Val 5) [Val 1; Val 0]) OverflowPair;
    mkValueBase (TupleExtractInst (Val 6) 0) Int64;
    mkValueBase (ApplyInst (Val 5) [Val 0; Val 1]) OverflowPair;
    mkValueBase (TupleExtractInst (Val 8) 0) Int64 ].


(** A block that is its own single predecessor:
    bb0: [%0 = enum #none], [switch_enum %0, case #none: bb0]. *)
Definition selfLoopEnum : SILFunction :=
  mkSILFunction
    (nodesOf [ mkValueBase (EnumInst (Elt 0) None) OptionalInt;
               mkValueBase (SwitchEnumInst (Val 0) [(Elt 0, BB 0)]) OptionalInt ])
    (parentsOf [BB 0; BB 0])
    (blocksOf [ mkSILBasicBlock [BB 0] (Val 1) ]).

(** A cast that is its own operand: [%0 = unchecked_ref_cast %0 to $Sub]. *)
Definition selfCast : SILFunction := straightLine
  [ mkValueBase (UncheckedRefCastInst (Val 0)) Sub ].

(** The nodes of [addBothOrders] placed in another block, bb1, which has
    two predecessors and another terminator. *)
Definition addBothOrdersMoved : SILFunction :=
  mkSILFunction
    (getDef addBothOrders)
    (fun _ => BB 1)
    (blocksOf [ mkSILBasicBlock [] (Val 0);
                mkSILBasicBlock [BB 0; BB 0] (Val 9) ]).

(** [switchThenEnum] with an extra edge into bb2 and another terminator
    there; bb0 and bb1 are as before. *)
Definition switchThenEnumElsewhere : SILFunction :=
  mkSILFunction
    (getDef switchThenEnum)
    (getParent switchThenEnum)
    (blocksOf [ mkSILBasicBlock [] (Val 1);
                mkSILBasicBlock [BB 0] (Val 5);
                mkSILBasicBlock [BB 0; BB 1] (Val 4) ]).

End Examples.

(** ** Properties *)

Section Properties.

Variable F : SILFunction.

#[local] Ltac dispatch H := unfold simplifyInstruction, visit; rewrite H.

(** *** Representation casts *)

(** The test of [visitAddressToPointerInst] compares the type of the inner
    cast with the type of the value the inner cast defines: it holds on every
    graph, so the rule fires whatever the outer declared type is. *)
Lemma visitAddressToPointerInst_unguarded (ATPI Op x : SILValue) :
  kindOf F ATPI = AddressToPointerInst Op ->
  kindOf F Op = PointerToAddressInst x ->
  simplifyInstruction F ATPI = Returns (Some x).
Proof.
  intros HI HOp. dispatch HI.
  unfold visitAddressToPointerInst, typeOf. unfold kindOf in HOp.
  destruct (getDef F Op) as [K T]. simpl in *. subst K.
  now rewrite bool_decide_eq_true_2.
Qed.

(** The mirrored rule does compare the inner operand's type with the outer
    declared type. *)
Lemma visitPointerToAddressInst_guarded (PTAI Op x : SILValue) :
  kindOf F PTAI = PointerToAddressInst Op ->
  kindOf F Op = AddressToPointerInst x ->
  simplifyInstruction F PTAI =
    Returns (if decide (typeOf F x = typeOf F PTAI) then Some x else None).
Proof.
  intros HI HOp. dispatch HI. unfold visitPointerToAddressInst. rewrite HOp.
  destruct (decide (typeOf F x = typeOf F PTAI)) as [E|E].
  - now rewrite bool_decide_eq_true_2.
  - now rewrite bool_decide_eq_false_2.
Qed.

(** *** Overflow arithmetic *)

Lemma simplifyOverflowBuiltin_family (Args : list SILValue) (FR : BuiltinRef)
    (op : OverflowOp) :
  overflowOpOf FR = Some op ->
  exists ID, simplifyOverflowBuiltin F Args FR = simplifyBinaryWithOverflow F Args ID /\
    match op with
    | OvAdd => ID = sadd_with_overflow \/ ID = uadd_with_overflow
    | OvSub => ID = ssub_with_overflow \/ ID = usub_with_overflow
    | OvMul => ID = smul_with_overflow \/ ID = umul_with_overflow
    end.
Proof.
  unfold overflowOpOf, simplifyOverflowBuiltin.
  destruct FR as [I B]; simpl.
  destruct I; try discriminate;
    try (intros [= <-]; eexists; split; [reflexivity | auto]).
  destruct B; try discriminate;
    intros [= <-]; eexists; (split; [reflexivity | auto]).
Qed.

Lemma m_Zero_literal (V : SILValue) :
  m_Zero F V = true -> is_Some (dyn_cast_IntegerLiteralInst F V).
Proof. unfold m_Zero. destruct (dyn_cast_IntegerLiteralInst F V); eauto; discriminate. Qed.

Lemma m_One_literal (V : SILValue) :
  m_One F V = true -> is_Some (dyn_cast_IntegerLiteralInst F V).
Proof. unfold m_One. destruct (dyn_cast_IntegerLiteralInst F V); eauto; discriminate. Qed.

Lemma m_Zero_not_literal (V : SILValue) :
  dyn_cast_IntegerLiteralInst F V = None -> m_Zero F V = false.
Proof. unfold m_Zero. now intros ->. Qed.

Lemma m_One_not_literal (V : SILValue) :
  dyn_cast_IntegerLiteralInst F V = None -> m_One F V = false.
Proof. unfold m_One. now intros ->. Qed.

Lemma m_Zero_not_One (V : SILValue) : m_Zero F V = true -> m_One F V = false.
Proof.
  unfold m_Zero, m_One. destruct (dyn_cast_IntegerLiteralInst F V); [|done].
  intros H%Z.eqb_eq. now subst.
Qed.

Lemma simplifyOverflowBuiltin_identityFold (Op1 Op2 : SILValue)
    (Rest : list SILValue) (FR : BuiltinRef) (op : OverflowOp) :
  overflowOpOf FR = Some op ->
  simplifyOverflowBuiltin F (Op1 :: Op2 :: Rest) FR = Returns (identityFold F op Op1 Op2).
Proof.
  intros Hop. destruct (simplifyOverflowBuiltin_family (Op1 :: Op2 :: Rest) FR op Hop)
    as (ID & -> & HID).
  unfold simplifyBinaryWithOverflow, identityFold.
  assert (Hlit : dyn_cast_IntegerLiteralInst F Op1 = None ->
                 dyn_cast_IntegerLiteralInst F Op2 = None ->
                 m_Zero F Op1 = false /\ m_Zero F Op2 = false /\
                 m_One F Op1 = false /\ m_One F Op2 = false)
    by (intros E1 E2; now rewrite !m_Zero_not_literal, !m_One_not_literal).
  destruct (dyn_cast_IntegerLiteralInst F Op1) as [n1|];
  destruct (dyn_cast_IntegerLiteralInst F Op2) as [n2|]; simpl.
  4: destruct Hlit as (-> & -> & -> & ->); [done..|]; now destruct op.
  all: destruct op; destruct HID as [-> | ->];
    destruct (m_Zero F Op1), (m_Zero F Op2), (m_One F Op1), (m_One F Op2);
    reflexivity.
Qed.

(** What [simplifyInstruction] does on the field-0 extract of a call to an
    overflow primitive with at least two arguments. *)
Lemma simplify_extract0_of_overflow_call (TEI AI Callee Op1 Op2 : SILValue)
    (Rest : list SILValue) (FR : BuiltinRef) (op : OverflowOp) :
  kindOf F TEI = TupleExtractInst AI 0 ->
  kindOf F AI = ApplyInst Callee (Op1 :: Op2 :: Rest) ->
  kindOf F Callee = BuiltinFunctionRefInst FR ->
  overflowOpOf FR = Some op ->
  simplifyInstruction F TEI = Returns (identityFold F op Op1 Op2).
Proof.
  intros HT HA HC Hop. dispatch HT. unfold visitTupleExtractInst.
  rewrite HA. simpl. rewrite HC.
  now apply simplifyOverflowBuiltin_identityFold.
Qed.

(** [visitApplyInst] only knows the value hint: a call to an overflow
    primitive is left alone. *)
Lemma simplify_overflow_call (AI Callee : SILValue) (Args : list SILValue)
    (FR : BuiltinRef) :
  kindOf F AI = ApplyInst Callee Args ->
  kindOf F Callee = BuiltinFunctionRefInst FR ->
  is_Some (overflowOpOf FR) ->
  simplifyInstruction F AI = Returns None.
Proof.
  intros HA HC [op Hop]. dispatch HA. unfold visitApplyInst. rewrite HC.
  rewrite bool_decide_eq_false_2; [done|].
  intros E. unfold overflowOpOf in Hop. now rewrite E in Hop.
Qed.

(** C2 (as amended): the identity folds of a call to an add, sub or mul
    with-overflow primitive are what [simplifyInstruction] returns for the
    field-0 tuple extract of the call: for add with a literal-zero operand
    the other operand, for sub with a literal-zero second operand the first
    operand, for mul with a literal-one operand the other operand, and for
    mul with a literal-zero operand a literal zero. *)
Theorem overflow_identity_folds (TEI AI Callee Op1 Op2 : SILValue)
    (Rest : list SILValue) (FR : BuiltinRef) (op : OverflowOp) :
  kindOf F TEI = TupleExtractInst AI 0 ->
  kindOf F AI = ApplyInst Callee (Op1 :: Op2 :: Rest) ->
  kindOf F Callee = BuiltinFunctionRefInst FR ->
  overflowOpOf FR = Some op ->
  match op with
  | OvAdd =>
      m_Zero F Op1 = true \/ m_Zero F Op2 = true ->
      exists x, simplifyInstruction F TEI = Returns (Some x) /\
                otherOperandOf (m_Zero F) Op1 Op2 x
  | OvSub =>
      m_Zero F Op2 = true ->
      simplifyInstruction F TEI = Returns (Some Op1)
  | OvMul =>
      (m_One F Op1 = true \/ m_One F Op2 = true ->
       exists x, simplifyInstruction F TEI = Returns (Some x) /\
                 otherOperandOf (m_One F) Op1 Op2 x) /\
      (m_Zero F Op1 = true \/ m_Zero F Op2 = true ->
       exists z, simplifyInstruction F TEI = Returns (Some z) /\
                 m_Zero F z = true /\ (z = Op1 \/ z = Op2))
  end.
Proof.
  intros HT HA HC Hop.
  rewrite (simplify_extract0_of_overflow_call _ _ _ _ _ _ _ _ HT HA HC Hop).
  unfold identityFold, otherOperandOf. destruct op.
  - intros H. destruct (m_Zero F Op1) eqn:Z1; [eauto|].
    destruct (m_Zero F Op2) eqn:Z2; [eauto|]. now destruct H.
  - now intros ->.
  - split; intros H.
    + destruct (m_Zero F Op1) eqn:Z1.
      { apply m_Zero_not_One in Z1. destruct H as [H|H]; [congruence|eauto]. }
      destruct (m_Zero F Op2) eqn:Z2.
      { apply m_Zero_not_One in Z2. destruct H as [H|H]; [eauto|congruence]. }
      destruct (m_One F Op1) eqn:O1; [eauto|].
      destruct (m_One F Op2) eqn:O2; [eauto|]. now destruct H.
    + destruct (m_Zero F Op1) eqn:Z1; [eauto|].
      destruct (m_Zero F Op2) eqn:Z2; [eauto|]. now destruct H.
Qed.

(** C6: when a multiplication with overflow has an integer-literal zero
    operand, the value returned is that operand itself: the first operand if
    it is the literal zero, otherwise the second. *)
Theorem mul_zero_returns_the_zero_operand (TEI AI Callee Op1 Op2 : SILValue)
    (Rest : list SILValue) (FR : BuiltinRef) :
  kindOf F TEI = TupleExtractInst AI 0 ->
  kindOf F AI = ApplyInst Callee (Op1 :: Op2 :: Rest) ->
  kindOf F Callee = BuiltinFunctionRefInst FR ->
  overflowOpOf FR = Some OvMul ->
  m_Zero F Op1 = true \/ m_Zero F Op2 = true ->
  simplifyInstruction F TEI = Returns (Some (if m_Zero F Op1 then Op1 else Op2)) /\
  m_Zero F (if m_Zero F Op1 then Op1 else Op2) = true.
Proof.
  intros HT HA HC Hop H.
  rewrite (simplify_extract0_of_overflow_call _ _ _ _ _ _ _ _ HT HA HC Hop).
  unfold identityFold.
  destruct (m_Zero F Op1) eqn:Z1; [done|].
  destruct (m_Zero F Op2) eqn:Z2; [done|]. now destruct H.
Qed.

(** C7: when the two operands of an overflow primitive match no identity
    pattern (both are not literals, or no literal is the identity constant
    of the operation in the position the operation wants it), nothing is
    returned; and whatever is returned is one of the two operands, never a
    computed constant. *)
Theorem no_identity_pattern_no_fold (TEI AI Callee Op1 Op2 : SILValue)
    (Rest : list SILValue) (FR : BuiltinRef) (op : OverflowOp) :
  kindOf F TEI = TupleExtractInst AI 0 ->
  kindOf F AI = ApplyInst Callee (Op1 :: Op2 :: Rest) ->
  kindOf F Callee = BuiltinFunctionRefInst FR ->
  overflowOpOf FR = Some op ->
  (dyn_cast_IntegerLiteralInst F Op1 = None ->
   dyn_cast_IntegerLiteralInst F Op2 = None ->
   simplifyInstruction F TEI = Returns None) /\
  match op with
  | OvAdd =>
      m_Zero F Op1 = false -> m_Zero F Op2 = false ->
      simplifyInstruction F TEI = Returns None
  | OvSub =>
      m_Zero F Op2 = false ->
      simplifyInstruction F TEI = Returns None
  | OvMul =>
      m_Zero F Op1 = false -> m_Zero F Op2 = false ->
      m_One F Op1 = false -> m_One F Op2 = false ->
      simplifyInstruction F TEI = Returns None
  end /\
  (forall V, simplifyInstruction F TEI = Returns (Some V) -> V = Op1 \/ V = Op2).
Proof.
  intros HT HA HC Hop.
  rewrite (simplify_extract0_of_overflow_call _ _ _ _ _ _ _ _ HT HA HC Hop).
  unfold identityFold. split; [|split].
  - intros E1 E2.
    rewrite !(m_Zero_not_literal _ E1), !(m_Zero_not_literal _ E2),
            ?(m_One_not_literal _ E1), ?(m_One_not_literal _ E2).
    now destruct op.
  - destruct op; intros; repeat match goal with H : _ = false |- _ => rewrite H; clear H end;
      reflexivity.
  - intros V. destruct op;
      destruct (m_Zero F Op1), (m_Zero F Op2), (m_One F Op1), (m_One F Op2);
      intros [=]; auto.
Qed.

(** C10: a call to an overflow primitive is never simplified itself, nor is
    a tuple extract of it at a nonzero field; the field-0 extract is the one
    place where the folds run. *)
Theorem overflow_folds_only_through_field_zero (AI Callee : SILValue)
    (Args : list SILValue) (FR : BuiltinRef) :
  kindOf F AI = ApplyInst Callee Args ->
  kindOf F Callee = BuiltinFunctionRefInst FR ->
  is_Some (overflowOpOf FR) ->
  simplifyInstruction F AI = Returns None /\
  (forall TEI n, kindOf F TEI = TupleExtractInst AI n -> n <> 0 ->
     simplifyInstruction F TEI = Returns None) /\
  (forall TEI, kindOf F TEI = TupleExtractInst AI 0 ->
     simplifyInstruction F TEI = simplifyOverflowBuiltin F Args FR).
Proof.
  intros HA HC Hop. split; [|split].
  - eapply simplify_overflow_call; eauto.
  - intros TEI n HT Hn. dispatch HT. unfold visitTupleExtractInst. rewrite HA.
    now rewrite bool_decide_eq_false_2.
  - intros TEI HT. dispatch HT. unfold visitTupleExtractInst. rewrite HA. simpl.
    now rewrite HC.
Qed.

(** *** Sum types *)

(** C4: a payload extract of a sum construct with payload returns the
    payload when the two discriminants are equal and nothing when they
    differ. *)
Theorem payload_extract_of_construct (UEDI EI payload : SILValue)
    (tag tag' : EnumElementDecl) :
  kindOf F UEDI = UncheckedEnumDataInst EI tag' ->
  kindOf F EI = EnumInst tag (Some payload) ->
  (tag = tag' -> simplifyInstruction F UEDI = Returns (Some payload)) /\
  (tag <> tag' -> simplifyInstruction F UEDI = Returns None).
Proof.
  intros HU HE. dispatch HU. unfold visitUncheckedEnumDataInst. rewrite HE.
  split; intros H.
  - now rewrite bool_decide_eq_true_2.
  - now rewrite bool_decide_eq_false_2.
Qed.

(** C5: a payloadless sum construct folds to the scrutinee when its block
    has exactly one predecessor, that predecessor ends in a switch over the
    scrutinee, the block is the target registered for the construct's tag and
    the construct's type is the scrutinee's type; with two or more
    predecessors nothing is returned. *)
Theorem enum_of_single_predecessor_switch (I : SILValue) (tag : EnumElementDecl) :
  kindOf F I = EnumInst tag None ->
  (forall P S Cases,
     Preds (getBlock F (getParent F I)) = [P] ->
     kindOf F (getTerminator (getBlock F P)) = SwitchEnumInst S Cases ->
     getCaseDestination Cases tag = Some (getParent F I) ->
     typeOf F I = typeOf F S ->
     simplifyInstruction F I = Returns (Some S)) /\
  (2 <= length (Preds (getBlock F (getParent F I))) ->
   simplifyInstruction F I = Returns None).
Proof.
  intros HI. split.
  - intros P S Cases HP HT HD Hty. dispatch HI. unfold visitEnumInst. simpl.
    unfold getSinglePredecessor. rewrite HP, HT.
    rewrite (bool_decide_eq_true_2 _ Hty). simpl.
    now rewrite bool_decide_eq_true_2.
  - intros Hlen. dispatch HI. unfold visitEnumInst. simpl.
    unfold getSinglePredecessor.
    destruct (Preds (getBlock F (getParent F I))) as [|P [|Q Ps]];
      simpl in Hlen; [lia | lia | reflexivity].
Qed.

(** *** Product types *)

Lemma dyn_cast_extract_kind (a : Aggregate) (V S : SILValue) (n : nat) :
  dyn_cast_extract a F V = Some (S, n) <-> kindOf F V = extract a S n.
Proof.
  destruct a; simpl;
    unfold dyn_cast_StructExtractInst, dyn_cast_TupleExtractInst;
    destruct (kindOf F V); split; intros [=]; subst; reflexivity.
Qed.

Lemma checkExtracts_source (cast : SILValue -> option (SILValue * nat))
    (Src S : SILValue) (i : nat) (Ops : list SILValue) :
  checkExtracts cast Src i Ops = Some S -> S = Src.
Proof.
  revert i. induction Ops as [|Op Rest IH]; intros i; simpl.
  - now intros [=].
  - destruct (cast Op) as [[ExOp ExNo]|]; [|discriminate].
    destruct (bool_decide (Src = ExOp)); simpl; [|discriminate].
    destruct (bool_decide (ExNo = i)); simpl; [|discriminate].
    apply IH.
Qed.

Lemma checkExtracts_Some (cast : SILValue -> option (SILValue * nat))
    (Src : SILValue) (i : nat) (Ops : list SILValue) :
  checkExtracts cast Src i Ops = Some Src <->
  forall j Op, Ops !! j = Some Op -> cast Op = Some (Src, i + j).
Proof.
  revert i. induction Ops as [|Op Rest IH]; intros i; simpl.
  - split; [intros _ j Op H; destruct j; discriminate | reflexivity].
  - split.
    + destruct (cast Op) as [[ExOp ExNo]|] eqn:E; [|discriminate].
      destruct (decide (Src = ExOp)) as [<-|Hne].
      2: { rewrite (bool_decide_eq_false_2 _ Hne). discriminate. }
      rewrite (bool_decide_eq_true_2 _ eq_refl). simpl.
      destruct (decide (ExNo = i)) as [->|Hne].
      2: { rewrite (bool_decide_eq_false_2 _ Hne). discriminate. }
      rewrite (bool_decide_eq_true_2 _ eq_refl). simpl.
      intros H [|j] Op' Hj; simpl in Hj.
      * injection Hj as <-. now rewrite Nat.add_0_r.
      * rewrite (proj1 (IH (S i)) H j Op' Hj). f_equal. f_equal. lia.
    + intros H. pose proof (H 0 Op eq_refl) as H0. rewrite Nat.add_0_r in H0.
      rewrite H0. rewrite !(bool_decide_eq_true_2 _ eq_refl). simpl.
      apply IH. intros j Op' Hj. rewrite (H (S j) Op' Hj). f_equal. f_equal. lia.
Qed.

(** Both construct visitors, read through [dyn_cast_extract]. *)
Lemma simplify_construct (a : Aggregate) (C : SILValue) (Ops : list SILValue) :
  kindOf F C = construct a Ops ->
  simplifyInstruction F C =
    match Ops with
    | [] => Returns None
    | Op0 :: _ =>
        match dyn_cast_extract a F Op0 with
        | Some (Src, _) =>
            if decide (typeOf F C = typeOf F Src)
            then Returns (checkExtracts (dyn_cast_extract a F) Src 0 Ops)
            else Returns None
        | None => Returns None
        end
    end.
Proof.
  intros HC. unfold simplifyInstruction, visit.
  destruct a; simpl in HC; rewrite HC;
    unfold visitStructInst, visitTupleInst; simpl;
    (destruct Ops as [|Op0 Rest]; [reflexivity|]);
    (rewrite bool_decide_eq_false_2 by (simpl; lia)); simpl.
  - destruct (dyn_cast_StructExtractInst F Op0) as [[Src n]|]; [|reflexivity].
    destruct (decide (typeOf F C = typeOf F Src)) as [E|E].
    + now rewrite (bool_decide_eq_true_2 _ E).
    + now rewrite (bool_decide_eq_false_2 _ E).
  - destruct (dyn_cast_TupleExtractInst F Op0) as [[Src n]|]; [|reflexivity].
    destruct (decide (typeOf F C = typeOf F Src)) as [E|E].
    + now rewrite (bool_decide_eq_true_2 _ E).
    + now rewrite (bool_decide_eq_false_2 _ E).
Qed.

(** A construct visitor always returns; what it returns is a source that the
    operands rebuild, or nothing. *)
Lemma simplify_construct_cases (a : Aggregate) (C : SILValue) (Ops : list SILValue) :
  kindOf F C = construct a Ops ->
  simplifyInstruction F C = Returns None \/
  exists S, simplifyInstruction F C = Returns (Some S) /\ 1 <= length Ops /\
            typeOf F C = typeOf F S /\ rebuilds F a S Ops.
Proof.
  intros HC. rewrite (simplify_construct a C Ops HC).
  destruct Ops as [|Op0 Rest]; [now left|].
  destruct (dyn_cast_extract a F Op0) as [[Src n]|]; [|now left].
  destruct (decide (typeOf F C = typeOf F Src)) as [E|E]; [|now left].
  destruct (checkExtracts (dyn_cast_extract a F) Src 0 (Op0 :: Rest)) as [S|] eqn:HS;
    [|now left].
  right. exists S. pose proof (checkExtracts_source _ _ _ _ _ HS) as ->.
  split; [reflexivity|]. split; [simpl; lia|]. split; [exact E|].
  intros i Op Hi. apply dyn_cast_extract_kind.
  exact (proj1 (checkExtracts_Some _ _ _ _) HS i Op Hi).
Qed.

(** C3: an aggregate construct with at least one operand simplifies to [S]
    exactly when its declared type is the type of [S] and operand [i] is
    [extract S i] at every position [i]; it returns nothing as soon as one
    operand is not an extract, extracts a field other than its position, or
    extracts from another source than some other operand does; a construct
    without operands returns nothing. *)
Theorem construct_of_extracts (a : Aggregate) (C : SILValue) (Ops : list SILValue) :
  kindOf F C = construct a Ops ->
  (1 <= length Ops ->
   forall S, simplifyInstruction F C = Returns (Some S) <->
             typeOf F C = typeOf F S /\ rebuilds F a S Ops) /\
  (forall i Op, Ops !! i = Some Op ->
     (forall S n, kindOf F Op <> extract a S n) \/
     (exists S n, kindOf F Op = extract a S n /\ n <> i) \/
     (exists S n j Op' S' m,
        kindOf F Op = extract a S n /\ Ops !! j = Some Op' /\
        kindOf F Op' = extract a S' m /\ S <> S') ->
     simplifyInstruction F C = Returns None) /\
  (Ops = [] -> simplifyInstruction F C = Returns None).
Proof.
  intros HC. split; [|split].
  - intros Hlen S. split.
    + intros HS. destruct (simplify_construct_cases a C Ops HC) as [HN|(S' & HS' & _ & Hty & Hre)].
      * rewrite HN in HS. discriminate.
      * rewrite HS' in HS. injection HS as <-. now split.
    + intros [Hty Hre]. rewrite (simplify_construct a C Ops HC).
      destruct Ops as [|Op0 Rest]; [simpl in Hlen; lia|].
      pose proof (Hre 0 Op0 eq_refl) as H0.
      apply dyn_cast_extract_kind in H0. rewrite H0.
      destruct (decide (typeOf F C = typeOf F S)) as [_|E]; [|done].
      f_equal. apply checkExtracts_Some. intros j Op Hj.
      apply dyn_cast_extract_kind. simpl. now apply Hre.
  - intros i Op Hi Hbad.
    destruct (simplify_construct_cases a C Ops HC) as [HN|(S0 & _ & _ & _ & Hre)];
      [exact HN|exfalso].
    pose proof (Hre i Op Hi) as HOp.
    destruct Hbad as [Hbad|[(S & n & HK & Hn)|(S & n & j & Op' & S' & m & HK & Hj & HK' & Hne)]].
    + exact (Hbad _ _ HOp).
    + rewrite HK in HOp. destruct a; injection HOp as -> ->; now apply Hn.
    + pose proof (Hre j Op' Hj) as HOp'. rewrite HK in HOp. rewrite HK' in HOp'.
      destruct a; injection HOp as -> _; injection HOp' as -> _; now apply Hne.
  - intros ->. now rewrite (simplify_construct a C [] HC).
Qed.

(** *** Totality *)

Lemma simplifyOverflowBuiltin_aborts (Args : list SILValue) (FR : BuiltinRef) :
  simplifyOverflowBuiltin F Args FR = Aborts <->
  is_Some (overflowOpOf FR) /\ length Args < 2.
Proof.
  destruct (overflowOpOf FR) as [op|] eqn:Hop.
  - destruct Args as [|Op1 [|Op2 Rest]].
    3: { rewrite (simplifyOverflowBuiltin_identityFold _ _ _ _ _ Hop).
         split; [discriminate | simpl; intros [_ H]; lia]. }
    all: destruct (simplifyOverflowBuiltin_family [] FR op Hop) as (ID & _ & HID);
      unfold simplifyOverflowBuiltin, overflowOpOf in *;
      destruct FR as [I B]; simpl in *;
      (split; [intros _; split; [eauto | lia] | intros _]);
      destruct I; try discriminate; try reflexivity;
      destruct B; try discriminate; reflexivity.
  - split; [|intros [[? [=]] _]].
    unfold simplifyOverflowBuiltin, overflowOpOf in *.
    destruct FR as [I B]; simpl in *.
    destruct I; try discriminate; destruct B; discriminate.
Qed.

#[local] Ltac split_tests :=
  repeat first
    [ progress simpl
    | case_bool_decide
    | match goal with
      | |- context [match ?x with _ => _ end] => destruct x eqn:?
      end ].

Lemma simplify_aborts_iff (I : SILValue) :
  simplifyInstruction F I = Aborts <-> meetsAssertions F I = false.
Proof.
  unfold simplifyInstruction, visit, meetsAssertions.
  destruct (kindOf F I) as
    [Es|Es|Op n|Op n|E P|Op E|Op|Op|Op|Op|K Op|Op|Op|Op|Callee Args|FR|z|Op Cs|Os|].
  - unfold visitStructInst. split; [|discriminate]. split_tests; discriminate.
  - unfold visitTupleInst. split; [|discriminate]. split_tests; discriminate.
  - unfold visitTupleExtractInst.
    destruct (kindOf F Op) as
      [| Es | | | | | | | | | | | | | Callee Args | | | | |]; try (split; discriminate).
    + destruct (Es !! n) as [V|] eqn:HV.
      * apply lookup_lt_Some in HV. rewrite bool_decide_eq_true_2 by lia.
        split; discriminate.
      * apply lookup_ge_None in HV. rewrite bool_decide_eq_false_2 by lia.
        split; reflexivity.
    + destruct (decide (n = 0)) as [->|Hn].
      2: { rewrite (bool_decide_eq_false_2 _ Hn). simpl.
           destruct (kindOf F Callee); split; discriminate. }
      rewrite (bool_decide_eq_true_2 _ eq_refl). simpl.
      destruct (kindOf F Callee); try (split; discriminate).
      rewrite simplifyOverflowBuiltin_aborts.
      destruct (decide (is_Some (overflowOpOf Info))) as [HS|HS].
      * rewrite (bool_decide_eq_true_2 _ HS).
        rewrite bool_decide_eq_false. split; [intros [_ ?]; lia | intros ?; split; [done|lia]].
      * rewrite (bool_decide_eq_false_2 _ HS). split; [intros [? _]; done | discriminate].
  - unfold visitStructExtractInst.
    destruct (kindOf F Op) as
      [ Es | | | | | | | | | | | | | | | | | | |]; try (split; discriminate).
    destruct (Es !! n) as [V|] eqn:HV.
    * apply lookup_lt_Some in HV. rewrite bool_decide_eq_true_2 by lia.
      split; discriminate.
    * apply lookup_ge_None in HV. rewrite bool_decide_eq_false_2 by lia.
      split; reflexivity.
  - unfold visitEnumInst, getSinglePredecessor.
    split; [|discriminate]. split_tests; discriminate.
  - unfold visitUncheckedEnumDataInst.
    destruct (kindOf F Op) as
      [ | | | | E' P | | | | | | | | | | | | | | |]; try (split; discriminate).
    destruct (decide (E' = E)) as [->|HE].
    + rewrite (bool_decide_eq_true_2 _ eq_refl). simpl.
      destruct P; simpl; split; (discriminate || reflexivity).
    + rewrite (bool_decide_eq_false_2 _ HE). simpl. split; discriminate.
  - unfold visitAddressToPointerInst. split; [|discriminate]. split_tests; discriminate.
  - unfold visitPointerToAddressInst. split; [|discriminate]. split_tests; discriminate.
  - unfold visitRefToRawPointerInst. split; [|discriminate]. split_tests; discriminate.
  - split; discriminate.
  - unfold visitUnconditionalCheckedCastInst. split; [|discriminate].
    split_tests; discriminate.
  - unfold visitUncheckedRefCastInst. split; [|discriminate]. split_tests; discriminate.
  - unfold visitUncheckedAddrCastInst. split; [|discriminate]. split_tests; discriminate.
  - unfold visitUpcastInst. split; [|discriminate]. split_tests; discriminate.
  - unfold visitApplyInst.
    destruct (kindOf F Callee); try (split; discriminate).
    destruct (bool_decide (IntrinsicInfoID Info = expect)); [|split; discriminate].
    destruct Args as [|Arg0 Rest]; simpl.
    + split; reflexivity.
    + rewrite ?bool_decide_eq_true_2 by lia.
      destruct (dyn_cast_IntegerLiteralInst F Arg0); split; discriminate.
  - split; discriminate.
  - split; discriminate.
  - split; discriminate.
  - split; discriminate.
  - split; discriminate.
Qed.

(** C8 (as amended): [simplifyInstruction] returns a value or nothing on
    every instruction that meets the invariants the visitors assert, and
    stops in an assertion on the others; an instruction whose tag has no
    rule always yields nothing. *)
Theorem simplify_total_on_asserted_invariants (I : SILValue) :
  (hasNoRule (kindOf F I) = true -> simplifyInstruction F I = Returns None) /\
  (meetsAssertions F I = true ->
   exists r, simplifyInstruction F I = Returns r) /\
  (meetsAssertions F I = false -> simplifyInstruction F I = Aborts).
Proof.
  split; [|split].
  - unfold simplifyInstruction, visit. destruct (kindOf F I); try discriminate; reflexivity.
  - intros H. destruct (simplifyInstruction F I) as [r|] eqn:E; [eauto|].
    apply simplify_aborts_iff in E. congruence.
  - apply simplify_aborts_iff.
Qed.

(** *** Provenance of the returned value *)

Lemma lookup_In (l : list SILValue) (i : nat) (V : SILValue) :
  l !! i = Some V -> In V l.
Proof. intros H. apply list_elem_of_In. eapply list_elem_of_lookup_2, H. Qed.

Lemma simplifyOverflowBuiltin_operand (Args : list SILValue) (FR : BuiltinRef)
    (V : SILValue) :
  simplifyOverflowBuiltin F Args FR = Returns (Some V) -> In V Args.
Proof.
  destruct (overflowOpOf FR) as [op|] eqn:Hop.
  - destruct (decide (length Args < 2)) as [Hlen|Hlen].
    + intros H.
      assert (E : simplifyOverflowBuiltin F Args FR = Aborts)
        by (apply simplifyOverflowBuiltin_aborts; split; [eauto | exact Hlen]).
      congruence.
    + destruct Args as [|Op1 [|Op2 Rest]]; [simpl in Hlen; lia..|].
      rewrite (simplifyOverflowBuiltin_identityFold _ _ _ _ _ Hop).
      unfold identityFold. destruct op;
        destruct (m_Zero F Op1), (m_Zero F Op2), (m_One F Op1), (m_One F Op2);
        intros [=]; subst; simpl; auto.
  - unfold simplifyOverflowBuiltin, overflowOpOf in *.
    destruct FR as [I B]; simpl in *.
    destruct I; try discriminate; destruct B; discriminate.
Qed.

#[local] Ltac operand_of HK :=
  solve [left; unfold isOperandOf; rewrite HK; simpl; auto].

#[local] Ltac operand_of_operand HK W HW :=
  solve [right; left; exists W; unfold isOperandOf; rewrite HK, HW; simpl; auto].

Lemma simplified_value_origin (I V : SILValue) :
  simplifyInstruction F I = Returns (Some V) ->
  isOperandOf F V I \/ isOperandOfOperandOf F V I \/ isPredecessorScrutinee F V I.
Proof.
  intros H. pose proof H as H'. unfold simplifyInstruction, visit in H'.
  destruct (kindOf F I) as
    [Es|Es|Op n|Op n|E P|Op E|Op|Op|Op|Op|K Op|Op|Op|Op|Callee Args|FR|z|Op Cs|Os|]
    eqn:HK; try discriminate H'.
  - destruct (simplify_construct_cases Struct I Es HK) as [HN|(S & HS & Hlen & _ & Hre)];
      [congruence|].
    assert (S = V) as -> by congruence.
    destruct Es as [|Op0 Rest]; [simpl in Hlen; lia|].
    pose proof (Hre 0 Op0 eq_refl) as H0. simpl in H0.
    operand_of_operand HK Op0 H0.
  - destruct (simplify_construct_cases Tuple I Es HK) as [HN|(S & HS & Hlen & _ & Hre)];
      [congruence|].
    assert (S = V) as -> by congruence.
    destruct Es as [|Op0 Rest]; [simpl in Hlen; lia|].
    pose proof (Hre 0 Op0 eq_refl) as H0. simpl in H0.
    operand_of_operand HK Op0 H0.
  - unfold visitTupleExtractInst in H'.
    destruct (kindOf F Op) as
      [| Es | | | | | | | | | | | | | Callee Args | | | | |] eqn:HOp;
      try discriminate H'.
    + destruct (Es !! n) as [W|] eqn:HW; [|discriminate].
      injection H' as ->. apply lookup_In in HW.
      operand_of_operand HK Op HOp.
    + destruct (bool_decide (n = 0)); [|discriminate].
      destruct (kindOf F Callee); try discriminate H'.
      apply simplifyOverflowBuiltin_operand in H'.
      operand_of_operand HK Op HOp.
  - unfold visitStructExtractInst in H'.
    destruct (kindOf F Op) as
      [ Es | | | | | | | | | | | | | | | | | | |] eqn:HOp; try discriminate H'.
    destruct (Es !! n) as [W|] eqn:HW; [|discriminate].
    injection H' as ->. apply lookup_In in HW.
    operand_of_operand HK Op HOp.
  - unfold visitEnumInst in H'.
    destruct P as [p|]; [discriminate|]. simpl in H'.
    destruct (getSinglePredecessor F (getParent F I)) as [Pred|] eqn:HP; [|discriminate].
    destruct (kindOf F (getTerminator (getBlock F Pred))) eqn:HT; try discriminate H'.
    destruct (negb _); [discriminate|].
    destruct (bool_decide _); [|discriminate].
    injection H' as ->. right; right. exists E, Pred, Cases. auto.
  - unfold visitUncheckedEnumDataInst in H'.
    destruct (kindOf F Op) as
      [ | | | | E' P | | | | | | | | | | | | | | |] eqn:HOp; try discriminate H'.
    destruct (negb _); [discriminate|].
    destruct P as [p|]; [|discriminate]. injection H' as ->.
    operand_of_operand HK Op HOp.
  - unfold visitAddressToPointerInst in H'.
    destruct (getDef F Op) as [KOp TOp] eqn:HD.
    assert (HOp : kindOf F Op = KOp) by (unfold kindOf; now rewrite HD).
    destruct KOp; try discriminate H'.
    destruct (bool_decide _); [|discriminate]. injection H' as ->.
    operand_of_operand HK Op HOp.
  - unfold visitPointerToAddressInst in H'.
    destruct (kindOf F Op) eqn:HOp; try discriminate H'.
    destruct (bool_decide _); [|discriminate]. injection H' as ->.
    operand_of_operand HK Op HOp.
  - unfold visitRefToRawPointerInst in H'.
    destruct (kindOf F Op) eqn:HOp; try discriminate H'.
    injection H' as ->. operand_of_operand HK Op HOp.
  - unfold visitUnconditionalCheckedCastInst in H'.
    destruct (bool_decide (K = Downcast)); [|discriminate].
    destruct (getDef F Op) as [KOp TOp] eqn:HD.
    assert (HOp : kindOf F Op = KOp) by (unfold kindOf; now rewrite HD).
    destruct KOp; try discriminate H'.
    destruct (_ && _); [|discriminate]. injection H' as ->.
    operand_of_operand HK Op HOp.
  - unfold visitUncheckedRefCastInst in H'.
    destruct (kindOf F Op) eqn:HOp;
      repeat (match type of H' with
              | (if ?b then _ else _) = _ => destruct b
              end);
      try discriminate H'; injection H' as <-;
      first [ operand_of HK | operand_of_operand HK Op HOp ].
  - unfold visitUncheckedAddrCastInst in H'.
    destruct (kindOf F Op) eqn:HOp;
      repeat (match type of H' with
              | (if ?b then _ else _) = _ => destruct b
              end);
      try discriminate H'; injection H' as <-;
      first [ operand_of HK | operand_of_operand HK Op HOp ].
  - unfold visitUpcastInst in H'.
    destruct (kindOf F Op) eqn:HOp; try discriminate H'.
    destruct (bool_decide _); [|discriminate]. injection H' as ->.
    operand_of_operand HK Op HOp.
  - unfold visitApplyInst in H'.
    destruct (kindOf F Callee); try discriminate H'.
    destruct (bool_decide _); [|discriminate].
    destruct (Args !! 0) as [Arg0|] eqn:HA; [|discriminate].
    destruct (dyn_cast_IntegerLiteralInst F Arg0); [|discriminate].
    injection H' as ->. apply lookup_In in HA. operand_of HK.
Qed.

(** C9 (as amended): a value returned for [I] is an operand of [I], an
    operand of the node that defines an operand of [I], or, for a payloadless
    sum construct, the scrutinee of the switch that ends the single
    predecessor of [I]'s block; in a graph where definitions come before
    their uses it is not the result of [I] itself, except when [I] is a
    payloadless sum construct and that switch scrutinises [I] itself. *)
Theorem simplified_value_is_earlier_value (I V : SILValue) :
  simplifyInstruction F I = Returns (Some V) ->
  (isOperandOf F V I \/ isOperandOfOperandOf F V I \/ isPredecessorScrutinee F V I) /\
  (forall rank, defsBeforeUses F rank ->
     V <> I \/ isPredecessorScrutinee F I I).
Proof.
  intros H. pose proof (simplified_value_origin I V H) as HO.
  split; [exact HO|].
  intros rank Hops.
  destruct (decide (V = I)) as [->|Hne]; [|now left].
  destruct HO as [HO|[(W & HW & HV)|HO]].
  - apply Hops in HO. lia.
  - apply Hops in HW, HV. lia.
  - now right.
Qed.

End Properties.

(** ** The properties on concrete graphs *)

Import Examples.

(** C1: a [pointer_to_address] (address from pointer) whose operand is
    [address_to_pointer x] (pointer from address) simplifies to [x] exactly
    when its declared type is the type of [x]; when the two types differ it
    returns nothing. *)
Theorem address_from_pointer_cancels_under_type_guard (F : SILFunction)
    (I Op x : SILValue) :
  kindOf F I = PointerToAddressInst Op ->
  kindOf F Op = AddressToPointerInst x ->
  (simplifyInstruction F I = Returns (Some x) <-> typeOf F I = typeOf F x) /\
  (typeOf F I <> typeOf F x -> simplifyInstruction F I = Returns None).
Proof.
  intros HI HOp. rewrite (visitPointerToAddressInst_guarded F I Op x HI HOp).
  destruct (decide (typeOf F x = typeOf F I)) as [E|E]; split.
  - split; [now intros _ | reflexivity].
  - intros Hne. now destruct Hne.
  - split; [discriminate | intros E'; now destruct E].
  - reflexivity.
Qed.

Lemma address_from_pointer_cancels_under_type_guard_witness :
  simplifyInstruction casts (Val 16) = Returns (Some (Val 14)) /\
  simplifyInstruction castMismatchMirrored (Val 2) = Returns None.
Proof.
  split.
  - apply (proj1 (address_from_pointer_cancels_under_type_guard casts
                    (Val 16) (Val 15) (Val 14) eq_refl eq_refl)).
    reflexivity.
  - apply (proj2 (address_from_pointer_cancels_under_type_guard castMismatchMirrored
                    (Val 2) (Val 1) (Val 0) eq_refl eq_refl)).
    vm_compute. discriminate.
Defined.

(** The other chain, [address_to_pointer (pointer_to_address %0)]: on
    [castMismatch] the outer declared type is not the type of [%0] and
    [%0] is returned all the same, since the type test of that rule compares
    the inner cast's type with the type of the value the inner cast
    defines. *)
Example address_to_pointer_folds_despite_type_mismatch :
  kindOf castMismatch (Val 2) = AddressToPointerInst (Val 1) /\
  kindOf castMismatch (Val 1) = PointerToAddressInst (Val 0) /\
  typeOf castMismatch (Val 2) <> typeOf castMismatch (Val 0) /\
  simplifyInstruction castMismatch (Val 2) = Returns (Some (Val 0)).
Proof.
  split; [reflexivity|]. split; [reflexivity|]. split.
  - vm_compute. discriminate.
  - now apply (visitAddressToPointerInst_unguarded castMismatch (Val 2) (Val 1) (Val 0)).
Qed.

(** The mirrored chain with mismatched types is left alone. *)
Example pointer_to_address_keeps_type_mismatch :
  typeOf castMismatchMirrored (Val 2) <> typeOf castMismatchMirrored (Val 0) /\
  simplifyInstruction castMismatchMirrored (Val 2) = Returns None.
Proof. split; [vm_compute; discriminate | reflexivity]. Qed.

(** C2, as stated, fails: [simplifyInstruction] on the call
    [apply sadd_with_overflow(0, %1)] itself returns nothing. *)
Lemma overflow_call_itself_is_not_folded :
  kindOf addZero (Val 3) = ApplyInst (Val 2) [Val 0; Val 1] /\
  kindOf addZero (Val 2) =
    BuiltinFunctionRefInst (mkBuiltinRef sadd_with_overflow (OtherBuiltin 0)) /\
  m_Zero addZero (Val 0) = true /\
  simplifyInstruction addZero (Val 3) = Returns None /\
  simplifyInstruction addZero (Val 3) <> Returns (Some (Val 1)).
Proof. repeat split; try reflexivity. discriminate. Qed.

Lemma overflow_identity_folds_witness :
  m_Zero addZero (Val 0) = true /\
  exists x, simplifyInstruction addZero (Val 4) = Returns (Some x) /\
            otherOperandOf (m_Zero addZero) (Val 0) (Val 1) x.
Proof.
  split; [reflexivity|].
  apply (overflow_identity_folds addZero (Val 4) (Val 3) (Val 2) (Val 0) (Val 1) []
           (mkBuiltinRef sadd_with_overflow (OtherBuiltin 0)) OvAdd
           eq_refl eq_refl eq_refl eq_refl).
  left; reflexivity.
Defined.

Lemma construct_of_extracts_witness :
  kindOf rebuild (Val 3) = construct Struct [Val 1; Val 2] /\
  simplifyInstruction rebuild (Val 3) = Returns (Some (Val 0)) /\
  simplifyInstruction rebuild (Val 4) = Returns None.
Proof.
  split; [reflexivity|]. split.
  - apply (proj1 (construct_of_extracts rebuild Struct (Val 3) [Val 1; Val 2] eq_refl)).
    + simpl; lia.
    + split; [reflexivity|].
      intros [|[|i]] Op [=]; subst; reflexivity.
  - apply (proj1 (proj2 (construct_of_extracts rebuild Struct (Val 4) [Val 2; Val 1] eq_refl))
             0 (Val 2) eq_refl).
    right; left. exists (Val 0), 1. split; [reflexivity | lia].
Defined.

Lemma payload_extract_of_construct_witness :
  simplifyInstruction enumPayload (Val 2) = Returns (Some (Val 0)) /\
  simplifyInstruction enumPayload (Val 3) = Returns None.
Proof.
  split.
  - apply (proj1 (payload_extract_of_construct enumPayload (Val 2) (Val 1) (Val 0)
                    (Elt 1) (Elt 1) eq_refl eq_refl)).
    reflexivity.
  - apply (proj2 (payload_extract_of_construct enumPayload (Val 3) (Val 1) (Val 0)
                    (Elt 1) (Elt 0) eq_refl eq_refl)).
    discriminate.
Defined.

Lemma enum_of_single_predecessor_switch_witness :
  simplifyInstruction switchThenEnum (Val 2) = Returns (Some (Val 0)) /\
  simplifyInstruction switchThenEnumJoin (Val 2) = Returns None.
Proof.
  split.
  - apply (proj1 (enum_of_single_predecessor_switch switchThenEnum (Val 2) (Elt 0) eq_refl)
             (BB 0) (Val 0) [(Elt 0, BB 1); (Elt 1, BB 2)]); reflexivity.
  - apply (proj2 (enum_of_single_predecessor_switch switchThenEnumJoin (Val 2) (Elt 0)
                    eq_refl)).
    simpl; lia.
Defined.

Lemma mul_zero_returns_the_zero_operand_witness :
  simplifyInstruction mulZero (Val 4) = Returns (Some (Val 1)) /\
  m_Zero mulZero (Val 1) = true.
Proof.
  apply (mul_zero_returns_the_zero_operand mulZero (Val 4) (Val 3) (Val 2) (Val 0) (Val 1) []
           (mkBuiltinRef not_intrinsic SMulOver) eq_refl eq_refl eq_refl eq_refl).
  right; reflexivity.
Defined.

Lemma no_identity_pattern_no_fold_witness :
  dyn_cast_IntegerLiteralInst addTwoThree (Val 0) = Some 2%Z /\
  dyn_cast_IntegerLiteralInst addTwoThree (Val 1) = Some 3%Z /\
  simplifyInstruction addTwoThree (Val 4) = Returns None.
Proof.
  split; [reflexivity|]. split; [reflexivity|].
  apply (proj1 (proj2 (no_identity_pattern_no_fold addTwoThree (Val 4) (Val 3) (Val 2)
                         (Val 0) (Val 1) []
                         (mkBuiltinRef uadd_with_overflow (OtherBuiltin 0)) OvAdd
                         eq_refl eq_refl eq_refl eq_refl)));
    reflexivity.
Defined.

Lemma overflow_folds_only_through_field_zero_witness :
  simplifyInstruction addZero (Val 3) = Returns None /\
  simplifyInstruction addZero (Val 5) = Returns None /\
  simplifyInstruction addZero (Val 4) = Returns (Some (Val 1)).
Proof.
  pose proof (overflow_folds_only_through_field_zero addZero (Val 3) (Val 2)
                [Val 0; Val 1] (mkBuiltinRef sadd_with_overflow (OtherBuiltin 0))
                eq_refl eq_refl (ex_intro _ OvAdd eq_refl)) as (H3 & Hn & H0).
  split; [exact H3|]. split.
  - apply (Hn (Val 5) 1 eq_refl). lia.
  - rewrite (H0 (Val 4) eq_refl). reflexivity.
Defined.

(** C8, as stated, fails: a payload extract of a payloadless sum construct
    with the same tag runs into
    [assert(EI->hasOperand() && "Should only get data from an enum with payload.")]. *)
Lemma payload_extract_of_payloadless_enum_aborts :
  kindOf enumNoPayload (Val 1) = UncheckedEnumDataInst (Val 0) (Elt 0) /\
  kindOf enumNoPayload (Val 0) = EnumInst (Elt 0) None /\
  simplifyInstruction enumNoPayload (Val 1) = Aborts /\
  ~ (exists r, simplifyInstruction enumNoPayload (Val 1) = Returns r).
Proof.
  repeat split; try reflexivity. intros [r H]. discriminate H.
Qed.

Lemma simplify_total_on_asserted_invariants_witness :
  simplifyInstruction addZero (Val 0) = Returns None /\
  (exists r, simplifyInstruction addZero (Val 4) = Returns r) /\
  simplifyInstruction enumNoPayload (Val 1) = Aborts.
Proof.
  split; [|split].
  - apply (proj1 (simplify_total_on_asserted_invariants addZero (Val 0))). reflexivity.
  - apply (proj1 (proj2 (simplify_total_on_asserted_invariants addZero (Val 4)))).
    reflexivity.
  - apply (proj2 (proj2 (simplify_total_on_asserted_invariants enumNoPayload (Val 1)))).
    reflexivity.
Defined.

(** C9, as stated, fails.  On [switchThenEnum] the value returned for the
    payloadless [%2 = enum #none] is the scrutinee [%0] of the predecessor's
    switch, which is neither an operand of [%2] nor an operand of one.  On
    [selfLoopEnum], where every operand is defined before its user, the
    value returned for [%0 = enum #none] is [%0] itself, the scrutinee of
    the switch that ends its own block.  On [selfCast], where an operand is
    not defined before its user, the cast is returned for itself. *)
Lemma returned_value_is_no_operand_or_is_the_instruction :
  (simplifyInstruction switchThenEnum (Val 2) = Returns (Some (Val 0)) /\
   ~ (isOperandOf switchThenEnum (Val 0) (Val 2) \/
      isOperandOfOperandOf switchThenEnum (Val 0) (Val 2))) /\
  (defsBeforeUses selfLoopEnum rankOf /\
   simplifyInstruction selfLoopEnum (Val 0) = Returns (Some (Val 0))) /\
  simplifyInstruction selfCast (Val 0) = Returns (Some (Val 0)).
Proof.
  split; [|split]; [| |reflexivity].
  - split; [reflexivity|].
    intros [H|(W & H & _)]; vm_compute in H; exact H.
  - split; [|reflexivity].
    intros [n] V. unfold isOperandOf, kindOf.
    do 2 (destruct n as [|n]; [simpl; intuition (subst; simpl; lia)|]).
    simpl. intros [].
Qed.

Lemma switchThenEnum_defsBeforeUses : defsBeforeUses switchThenEnum rankOf.
Proof.
  intros [n] V. unfold isOperandOf, kindOf.
  do 6 (destruct n as [|n]; [simpl; intuition (subst; simpl; lia)|]).
  simpl. intros [].
Defined.

Lemma simplified_value_is_earlier_value_witness :
  defsBeforeUses switchThenEnum rankOf /\
  isPredecessorScrutinee switchThenEnum (Val 0) (Val 2) /\
  (Val 0 <> Val 2 \/ isPredecessorScrutinee switchThenEnum (Val 2) (Val 2)).
Proof.
  pose proof (simplified_value_is_earlier_value switchThenEnum (Val 2) (Val 0) eq_refl)
    as [HO HN].
  split; [exact switchThenEnum_defsBeforeUses|]. split.
  - destruct HO as [HO|[(W & HW & _)|HO]]; [| |exact HO].
    + vm_compute in HO. destruct HO.
    + vm_compute in HW. destruct HW.
  - exact (HN rankOf switchThenEnum_defsBeforeUses).
Defined.

(** ** Further properties of the rules *)

Section MoreProperties.

Variable F : SILFunction.

#[local] Ltac dispatch H := unfold simplifyInstruction, visit; rewrite H.

#[local] Ltac split_test :=
  match goal with
  | |- context [bool_decide ?P] =>
      destruct (decide P);
      [ rewrite (bool_decide_eq_true_2 P) by assumption
      | rewrite (bool_decide_eq_false_2 P) by assumption ]
  | H : context [bool_decide ?P] |- _ =>
      destruct (decide P);
      [ rewrite (bool_decide_eq_true_2 P) in H by assumption
      | rewrite (bool_decide_eq_false_2 P) in H by assumption ]
  | |- context [match ?x with _ => _ end] => destruct x eqn:?
  | H : context [match ?x with _ => _ end] |- _ => destruct x eqn:?
  end.

#[local] Ltac crush :=
  repeat first [ split_test | progress (simpl in *) | discriminate ];
  try solve [ intuition (try congruence; eauto)
            | intros [= <-]; eauto 10
            | intros [= ->]; eauto 10 ].

(** X1: an extract of a construct of the same product type returns the
    operand at the extracted position, whatever the types are; when the
    construct has no operand at that position the rule stops in the
    out-of-range access; an extract of a construct of the other product type
    is left alone. *)
Theorem extract_of_construct (a a' : Aggregate) (E C : SILValue)
    (Ops : list SILValue) (n : nat) :
  kindOf F E = extract a C n ->
  kindOf F C = construct a' Ops ->
  (a = a' -> forall V, Ops !! n = Some V ->
     simplifyInstruction F E = Returns (Some V)) /\
  (a = a' -> length Ops <= n -> simplifyInstruction F E = Aborts) /\
  (a <> a' -> simplifyInstruction F E = Returns None).
Proof.
  intros HE HC. unfold simplifyInstruction, visit.
  destruct a, a'; simpl in HE, HC; rewrite HE;
    unfold visitStructExtractInst, visitTupleExtractInst; rewrite HC;
    (split; [|split]); try congruence; try reflexivity.
  - intros _ V ->. reflexivity.
  - intros _ Hn. apply lookup_ge_None in Hn. now rewrite Hn.
  - intros _ V ->. reflexivity.
  - intros _ Hn. apply lookup_ge_None in Hn. now rewrite Hn.
Qed.

(** X2: [pointer_to_address] simplifies to [V] exactly when its operand is
    [address_to_pointer V] and the type of [V] is its own declared type; it
    never stops in an assertion. *)
Theorem pointer_to_address_cancels_iff (I Op : SILValue) :
  kindOf F I = PointerToAddressInst Op ->
  (forall V, simplifyInstruction F I = Returns (Some V) <->
             kindOf F Op = AddressToPointerInst V /\ typeOf F V = typeOf F I) /\
  simplifyInstruction F I <> Aborts.
Proof.
  intros HI. dispatch HI. unfold visitPointerToAddressInst.
  split; [intros V; split|]; crush.
Qed.

(** X3: [ref_to_raw_pointer] simplifies to [V] exactly when its operand is
    [raw_pointer_to_ref V]; no type is compared. *)
Theorem ref_to_raw_pointer_cancels_iff (I Op : SILValue) :
  kindOf F I = RefToRawPointerInst Op ->
  forall V, simplifyInstruction F I = Returns (Some V) <->
            kindOf F Op = RawPointerToRefInst V.
Proof.
  intros HI V. dispatch HI. unfold visitRefToRawPointerInst.
  split; crush.
Qed.

(** X4: an unconditional checked cast simplifies to [V] exactly when it is a
    downcast, its operand is [upcast V] and its declared type is the type of
    [V]. *)
Theorem checked_downcast_of_upcast_iff (I Op : SILValue) (K : CheckedCastKind) :
  kindOf F I = UnconditionalCheckedCastInst K Op ->
  forall V, simplifyInstruction F I = Returns (Some V) <->
            K = Downcast /\ kindOf F Op = UpcastInst V /\ typeOf F I = typeOf F V.
Proof.
  intros HI V. dispatch HI. unfold visitUnconditionalCheckedCastInst.
  unfold kindOf, typeOf. destruct (getDef F Op) as [KOp TOp]. simpl.
  split.
  - crush.
  - intros (-> & -> & ->). now rewrite !bool_decide_eq_true_2.
Qed.

(** X5: [upcast] simplifies to [V] exactly when its operand is
    [unchecked_ref_cast V] and the type of [V] is its declared type: an
    upcast of an upcast and an upcast to the operand's own type are left
    alone. *)
Theorem upcast_of_ref_cast_iff (I Op : SILValue) :
  kindOf F I = UpcastInst Op ->
  forall V, simplifyInstruction F I = Returns (Some V) <->
            kindOf F Op = UncheckedRefCastInst V /\ typeOf F V = typeOf F I.
Proof.
  intros HI V. dispatch HI. unfold visitUpcastInst.
  split; crush.
Qed.

(** X6: [unchecked_ref_cast] looks through an inner [unchecked_ref_cast] or
    [upcast] first: when the inner operand has the declared type it is
    returned even if the operand has it too; otherwise the operand is
    returned when it has the declared type; otherwise nothing. *)
Theorem unchecked_ref_cast_prefers_inner (I Op : SILValue) :
  kindOf F I = UncheckedRefCastInst Op ->
  (forall x, kindOf F Op = UncheckedRefCastInst x \/ kindOf F Op = UpcastInst x ->
     typeOf F x = typeOf F I -> simplifyInstruction F I = Returns (Some x)) /\
  ((forall x, kindOf F Op = UncheckedRefCastInst x \/ kindOf F Op = UpcastInst x ->
      typeOf F x <> typeOf F I) ->
   simplifyInstruction F I =
     Returns (if decide (typeOf F Op = typeOf F I) then Some Op else None)).
Proof.
  intros HI. dispatch HI. unfold visitUncheckedRefCastInst. split.
  - intros x [HOp|HOp] Hty; rewrite HOp; now rewrite bool_decide_eq_true_2.
  - intros Hne.
    assert (Hself :
      (if bool_decide (typeOf F Op = typeOf F I) then Returns (Some Op) else Returns None)
      = Returns (if decide (typeOf F Op = typeOf F I) then Some Op else None))
      by (destruct (decide (typeOf F Op = typeOf F I)) as [E|E];
          [now rewrite (bool_decide_eq_true_2 _ E)
          |now rewrite (bool_decide_eq_false_2 _ E)]).
    destruct (kindOf F Op) eqn:HOp; try exact Hself.
    + now rewrite (bool_decide_eq_false_2 _ (Hne _ (or_introl eq_refl))).
    + now rewrite (bool_decide_eq_false_2 _ (Hne _ (or_intror eq_refl))).
Qed.

(** X7: [unchecked_addr_cast] does the same over an inner
    [unchecked_addr_cast]. *)
Theorem unchecked_addr_cast_prefers_inner (I Op : SILValue) :
  kindOf F I = UncheckedAddrCastInst Op ->
  (forall x, kindOf F Op = UncheckedAddrCastInst x ->
     typeOf F x = typeOf F I -> simplifyInstruction F I = Returns (Some x)) /\
  ((forall x, kindOf F Op = UncheckedAddrCastInst x -> typeOf F x <> typeOf F I) ->
   simplifyInstruction F I =
     Returns (if decide (typeOf F Op = typeOf F I) then Some Op else None)).
Proof.
  intros HI. dispatch HI. unfold visitUncheckedAddrCastInst. split.
  - intros x HOp Hty; rewrite HOp; now rewrite bool_decide_eq_true_2.
  - intros Hne.
    assert (Hself :
      (if bool_decide (typeOf F Op = typeOf F I) then Returns (Some Op) else Returns None)
      = Returns (if decide (typeOf F Op = typeOf F I) then Some Op else None))
      by (destruct (decide (typeOf F Op = typeOf F I)) as [E|E];
          [now rewrite (bool_decide_eq_true_2 _ E)
          |now rewrite (bool_decide_eq_false_2 _ E)]).
    destruct (kindOf F Op) eqn:HOp; try exact Hself.
    now rewrite (bool_decide_eq_false_2 _ (Hne _ eq_refl)).
Qed.

(** X8: a call simplifies to [V] exactly when its callee is the builtin of
    the [expect] intrinsic and [V] is its first argument, an integer
    literal. *)
Theorem apply_folds_only_the_hint (I Callee : SILValue) (Args : list SILValue) :
  kindOf F I = ApplyInst Callee Args ->
  forall V, simplifyInstruction F I = Returns (Some V) <->
            (exists FR, kindOf F Callee = BuiltinFunctionRefInst FR /\
                        IntrinsicInfoID FR = expect) /\
            Args !! 0 = Some V /\
            is_Some (dyn_cast_IntegerLiteralInst F V).
Proof.
  intros HI V. dispatch HI. unfold visitApplyInst. split.
  - crush.
  - intros ((FR & -> & HE) & HA & [z Hz]).
    rewrite (bool_decide_eq_true_2 _ HE), HA, Hz. reflexivity.
Qed.

(** X9: a payload extract simplifies to [V] exactly when its operand is a
    sum construct of the same tag with payload [V]. *)
Theorem payload_extract_iff (I Op : SILValue) (tag : EnumElementDecl) :
  kindOf F I = UncheckedEnumDataInst Op tag ->
  forall V, simplifyInstruction F I = Returns (Some V) <->
            kindOf F Op = EnumInst tag (Some V).
Proof.
  intros HI V. dispatch HI. unfold visitUncheckedEnumDataInst. split.
  - crush.
  - intros ->. now rewrite bool_decide_eq_true_2.
Qed.

(** X10: a sum construct simplifies to [S] exactly when it has no payload,
    its block has a single predecessor that ends in a switch over [S] whose
    case for the construct's tag targets the block, and its declared type is
    the type of [S]; the rule never stops in an assertion. *)
Theorem enum_folds_iff (I : SILValue) (tag : EnumElementDecl)
    (Payload : option SILValue) :
  kindOf F I = EnumInst tag Payload ->
  (forall S, simplifyInstruction F I = Returns (Some S) <->
     Payload = None /\
     exists P Cases,
       Preds (getBlock F (getParent F I)) = [P] /\
       kindOf F (getTerminator (getBlock F P)) = SwitchEnumInst S Cases /\
       typeOf F I = typeOf F S /\
       getCaseDestination Cases tag = Some (getParent F I)) /\
  simplifyInstruction F I <> Aborts.
Proof.
  intros HI. dispatch HI. unfold visitEnumInst, getSinglePredecessor.
  split; [intros S; split|].
  - destruct Payload as [p|]; [discriminate|]. simpl.
    destruct (Preds (getBlock F (getParent F I))) as [|P [|Q Ps]]; try discriminate.
    destruct (kindOf F (getTerminator (getBlock F P))) eqn:HT; try discriminate.
    crush.
  - intros (-> & P & Cases & -> & -> & Hty & HD). simpl.
    rewrite (bool_decide_eq_true_2 _ Hty). simpl.
    now rewrite bool_decide_eq_true_2.
  - crush.
Qed.

(** X11: the rules for constructs, sum constructs, [pointer_to_address],
    checked and unchecked casts and [upcast] only return a value of the
    declared type of the instruction they replace. *)
Theorem type_guarded_rules_preserve_type (I V : SILValue) :
  typeGuarded (kindOf F I) = true ->
  simplifyInstruction F I = Returns (Some V) ->
  typeOf F V = typeOf F I.
Proof.
  intros HG H. pose proof H as H'. unfold simplifyInstruction, visit in H'.
  destruct (kindOf F I) eqn:HK; try discriminate HG.
  - destruct (simplify_construct_cases F Struct I _ HK) as [HN|(S & HS & _ & Hty & _)];
      congruence.
  - destruct (simplify_construct_cases F Tuple I _ HK) as [HN|(S & HS & _ & Hty & _)];
      congruence.
  - unfold visitEnumInst in H'. crush.
  - unfold visitPointerToAddressInst in H'. crush.
  - unfold visitUnconditionalCheckedCastInst in H'. crush.
  - unfold visitUncheckedRefCastInst in H'. crush.
  - unfold visitUncheckedAddrCastInst in H'. crush.
  - unfold visitUpcastInst in H'. crush.
Qed.

Lemma simplifyOverflowBuiltin_other (Args : list SILValue) (FR : BuiltinRef) :
  overflowOpOf FR = None -> simplifyOverflowBuiltin F Args FR = Returns None.
Proof.
  unfold simplifyOverflowBuiltin, overflowOpOf. destruct FR as [I B]; simpl.
  destruct I; try discriminate; try reflexivity.
  destruct B; try discriminate; reflexivity.
Qed.

Lemma simplifyOverflowBuiltin_by_family (Args : list SILValue) (FR1 FR2 : BuiltinRef) :
  overflowOpOf FR1 = overflowOpOf FR2 ->
  simplifyOverflowBuiltin F Args FR1 = simplifyOverflowBuiltin F Args FR2.
Proof.
  intros E. destruct (overflowOpOf FR1) as [op|] eqn:H1; symmetry in E.
  - destruct (decide (length Args < 2)) as [Hlen|Hlen].
    + rewrite (proj2 (simplifyOverflowBuiltin_aborts F Args FR1)) by eauto.
      now rewrite (proj2 (simplifyOverflowBuiltin_aborts F Args FR2)) by eauto.
    + destruct Args as [|a [|b Rest]]; [simpl in Hlen; lia..|].
      now rewrite !(simplifyOverflowBuiltin_identityFold F _ _ _ _ op).
  - now rewrite !simplifyOverflowBuiltin_other.
Qed.

(** X12: the fold of an overflow primitive depends on its callee only
    through the family (add, sub or mul) the callee designates: the signed
    and the unsigned variant, named as an LLVM intrinsic or as a builtin,
    give the same result on the same arguments, assertion included. *)
Theorem overflow_fold_depends_on_family_only
    (TEI1 AI1 C1 TEI2 AI2 C2 : SILValue) (Args : list SILValue)
    (FR1 FR2 : BuiltinRef) :
  kindOf F TEI1 = TupleExtractInst AI1 0 ->
  kindOf F AI1 = ApplyInst C1 Args ->
  kindOf F C1 = BuiltinFunctionRefInst FR1 ->
  kindOf F TEI2 = TupleExtractInst AI2 0 ->
  kindOf F AI2 = ApplyInst C2 Args ->
  kindOf F C2 = BuiltinFunctionRefInst FR2 ->
  overflowOpOf FR1 = overflowOpOf FR2 ->
  simplifyInstruction F TEI1 = simplifyInstruction F TEI2.
Proof.
  intros HT1 HA1 HC1 HT2 HA2 HC2 E.
  unfold simplifyInstruction, visit. rewrite HT1, HT2.
  unfold visitTupleExtractInst. rewrite HA1, HA2. simpl. rewrite HC1, HC2.
  now apply simplifyOverflowBuiltin_by_family.
Qed.

(** X13: a tuple extract of a call returns a value only at field 0 of a call
    to an overflow primitive with at least two arguments, one of which is
    the literal 0 or 1; the value is one of the first two arguments. *)
Theorem extract_of_call_folds_only_identities (TEI AI Callee V : SILValue)
    (Args : list SILValue) (n : nat) :
  kindOf F TEI = TupleExtractInst AI n ->
  kindOf F AI = ApplyInst Callee Args ->
  simplifyInstruction F TEI = Returns (Some V) ->
  n = 0 /\
  exists FR Op1 Op2 Rest,
    kindOf F Callee = BuiltinFunctionRefInst FR /\
    is_Some (overflowOpOf FR) /\
    Args = Op1 :: Op2 :: Rest /\
    (V = Op1 \/ V = Op2) /\
    (m_Zero F Op1 = true \/ m_Zero F Op2 = true \/
     m_One F Op1 = true \/ m_One F Op2 = true).
Proof.
  intros HT HA. unfold simplifyInstruction, visit. rewrite HT.
  unfold visitTupleExtractInst. rewrite HA.
  destruct (decide (n = 0)) as [->|Hn].
  2: { now rewrite (bool_decide_eq_false_2 _ Hn). }
  simpl. destruct (kindOf F Callee) eqn:HC; try discriminate.
  intros H. split; [reflexivity|].
  destruct (overflowOpOf Info) as [op|] eqn:Hop.
  2: { now rewrite simplifyOverflowBuiltin_other in H. }
  destruct (decide (length Args < 2)) as [Hlen|Hlen].
  { rewrite (proj2 (simplifyOverflowBuiltin_aborts F Args Info)) in H by eauto.
    discriminate. }
  destruct Args as [|Op1 [|Op2 Rest]]; [simpl in Hlen; lia..|].
  rewrite (simplifyOverflowBuiltin_identityFold F _ _ _ _ op Hop) in H.
  exists Info, Op1, Op2, Rest. split; [reflexivity|]. split; [eauto|].
  split; [reflexivity|].
  unfold identityFold in H. destruct op;
    destruct (m_Zero F Op1), (m_Zero F Op2), (m_One F Op1), (m_One F Op2);
    try discriminate H; inversion H; subst; auto.
Qed.

(** X14: for add and mul the fold does not depend on the order of the two
    operands, unless both are the literal 0 or both are the literal 1 (then
    each order returns its own second, resp. first, operand). *)
Theorem add_mul_fold_commutes (TEI1 AI1 C1 TEI2 AI2 C2 a b : SILValue)
    (Rest1 Rest2 : list SILValue) (FR1 FR2 : BuiltinRef) (op : OverflowOp) :
  kindOf F TEI1 = TupleExtractInst AI1 0 ->
  kindOf F AI1 = ApplyInst C1 (a :: b :: Rest1) ->
  kindOf F C1 = BuiltinFunctionRefInst FR1 ->
  overflowOpOf FR1 = Some op ->
  kindOf F TEI2 = TupleExtractInst AI2 0 ->
  kindOf F AI2 = ApplyInst C2 (b :: a :: Rest2) ->
  kindOf F C2 = BuiltinFunctionRefInst FR2 ->
  overflowOpOf FR2 = Some op ->
  op <> OvSub ->
  ~ (m_Zero F a = true /\ m_Zero F b = true) ->
  ~ (m_One F a = true /\ m_One F b = true) ->
  simplifyInstruction F TEI1 = simplifyInstruction F TEI2.
Proof.
  intros HT1 HA1 HC1 Hop1 HT2 HA2 HC2 Hop2 Hsub Hz Ho.
  rewrite (simplify_extract0_of_overflow_call F _ _ _ _ _ _ _ _ HT1 HA1 HC1 Hop1).
  rewrite (simplify_extract0_of_overflow_call F _ _ _ _ _ _ _ _ HT2 HA2 HC2 Hop2).
  unfold identityFold. destruct op; [|congruence|];
    destruct (m_Zero F a) eqn:Za, (m_Zero F b) eqn:Zb;
    try (exfalso; apply Hz; now split); try reflexivity;
    try (rewrite (m_Zero_not_One F _ Za)); try (rewrite (m_Zero_not_One F _ Zb));
    destruct (m_One F a) eqn:Oa, (m_One F b) eqn:Ob;
    try (exfalso; apply Ho; now split); reflexivity.
Qed.

(** X15: only the rules that index operands or assert a payload can stop in
    an assertion: constructs, sum constructs and all casts return on every
    graph. *)
Theorem only_indexing_rules_assert (I : SILValue) :
  simplifyInstruction F I = Aborts -> mayAssert (kindOf F I) = true.
Proof.
  intros H. apply simplify_aborts_iff in H. unfold meetsAssertions in H.
  destruct (kindOf F I); try discriminate H; reflexivity.
Qed.


End MoreProperties.

(** ** Locality *)

Section Locality.

Variables F G : SILFunction.

Lemma checkExtracts_ext (castF castG : SILValue -> option (SILValue * nat))
    (Src : SILValue) (i : nat) (Ops : list SILValue) :
  (forall Op, In Op Ops -> castF Op = castG Op) ->
  checkExtracts castF Src i Ops = checkExtracts castG Src i Ops.
Proof.
  revert i. induction Ops as [|Op Rest IH]; intros i H; simpl; [reflexivity|].
  rewrite <- (H Op (or_introl eq_refl)).
  destruct (castF Op) as [[ExOp ExNo]|]; [|reflexivity].
  destruct (negb (bool_decide (Src = ExOp))); [reflexivity|].
  destruct (negb (bool_decide (ExNo = i))); [reflexivity|].
  apply IH. intros Op' HIn. apply H. now right.
Qed.

Lemma simplifyOverflowBuiltin_ext (Args : list SILValue) (FR : BuiltinRef) :
  (forall V, In V Args -> getDef F V = getDef G V) ->
  simplifyOverflowBuiltin F Args FR = simplifyOverflowBuiltin G Args FR.
Proof.
  intros H.
  assert (HB : forall ID, simplifyBinaryWithOverflow F Args ID =
                          simplifyBinaryWithOverflow G Args ID).
  { intros ID. unfold simplifyBinaryWithOverflow.
    destruct Args as [|Op1 [|Op2 Rest]]; try reflexivity.
    unfold m_Zero, m_One, dyn_cast_IntegerLiteralInst, kindOf.
    rewrite <- (H Op1) by (simpl; auto). rewrite <- (H Op2) by (simpl; auto).
    reflexivity. }
  unfold simplifyOverflowBuiltin.
  destruct (IntrinsicInfoID FR); try reflexivity; try apply HB.
  destruct (getLLVMIntrinsicIDForBuiltinWithOverflow (BuiltinInfoID FR));
    [apply HB | reflexivity].
Qed.

(** X16: the result for [I] is determined by [I], its operands and their
    operands and, only for a sum construct without payload, by its block,
    the block's predecessors and the single predecessor's terminator: two
    graphs that agree there give the same result, whatever else differs. *)
Theorem simplify_reads_two_hops (I : SILValue) :
  agreeAround F G I ->
  simplifyInstruction F I = simplifyInstruction G I.
Proof.
  intros (Hdef & Hcfg).
  assert (HI : getDef G I = getDef F I) by (symmetry; apply Hdef; now left).
  assert (H1 : forall Op, In Op (getOperands (kindOf F I)) ->
                          getDef G Op = getDef F Op).
  { intros Op HOp. symmetry. apply Hdef. right; left. exact HOp. }
  assert (H2 : forall Op x, In Op (getOperands (kindOf F I)) ->
                            In x (getOperands (kindOf F Op)) ->
                            getDef G x = getDef F x).
  { intros Op x HOp Hx. symmetry. apply Hdef. right; right. now exists Op. }
  assert (HtI : typeOf G I = typeOf F I) by (unfold typeOf; now rewrite HI).
  unfold simplifyInstruction, visit.
  replace (kindOf G I) with (kindOf F I) by (unfold kindOf; now rewrite HI).
  destruct (kindOf F I) as
    [Es|Es|Op n|Op n|E P|Op E|Op|Op|Op|Op|K Op|Op|Op|Op|Callee Args|FR|z|Op Cs|Os|]
    eqn:HK; simpl in H1, H2; try reflexivity.
  - unfold visitStructInst. destruct (bool_decide (length Es < 1)); [reflexivity|].
    destruct (Es !! 0) as [Op0|] eqn:H0; [|reflexivity].
    apply lookup_In in H0.
    assert (Hcast : forall Op, In Op Es ->
              dyn_cast_StructExtractInst F Op = dyn_cast_StructExtractInst G Op)
      by (intros Op HOp; unfold dyn_cast_StructExtractInst, kindOf;
          now rewrite (H1 Op HOp)).
    rewrite <- (Hcast Op0 H0).
    destruct (dyn_cast_StructExtractInst F Op0) as [[Src m]|] eqn:HS; [|reflexivity].
    assert (HSrc : typeOf G Src = typeOf F Src).
    { unfold typeOf. f_equal. apply (H2 Op0 Src H0).
      unfold dyn_cast_StructExtractInst in HS.
      destruct (kindOf F Op0); try discriminate HS. injection HS as -> _.
      simpl. auto. }
    rewrite HtI, HSrc. destruct (negb _); [reflexivity|].
    f_equal. now apply checkExtracts_ext.
  - unfold visitTupleInst. destruct (bool_decide (length Es < 1)); [reflexivity|].
    destruct (Es !! 0) as [Op0|] eqn:H0; [|reflexivity].
    apply lookup_In in H0.
    assert (Hcast : forall Op, In Op Es ->
              dyn_cast_TupleExtractInst F Op = dyn_cast_TupleExtractInst G Op)
      by (intros Op HOp; unfold dyn_cast_TupleExtractInst, kindOf;
          now rewrite (H1 Op HOp)).
    rewrite <- (Hcast Op0 H0).
    destruct (dyn_cast_TupleExtractInst F Op0) as [[Src m]|] eqn:HS; [|reflexivity].
    assert (HSrc : typeOf G Src = typeOf F Src).
    { unfold typeOf. f_equal. apply (H2 Op0 Src H0).
      unfold dyn_cast_TupleExtractInst in HS.
      destruct (kindOf F Op0); try discriminate HS. injection HS as -> _.
      simpl. auto. }
    rewrite HtI, HSrc. destruct (negb _); [reflexivity|].
    f_equal. now apply checkExtracts_ext.
  - unfold visitTupleExtractInst.
    replace (kindOf G Op) with (kindOf F Op)
      by (unfold kindOf; rewrite (H1 Op); auto).
    destruct (kindOf F Op) eqn:HOp; try reflexivity.
    destruct (bool_decide (n = 0)); [|reflexivity].
    replace (kindOf G Callee) with (kindOf F Callee)
      by (unfold kindOf; rewrite (H2 Op Callee); rewrite ?HOp; simpl; auto).
    destruct (kindOf F Callee); try reflexivity.
    apply simplifyOverflowBuiltin_ext. intros V HV. symmetry.
    apply (H2 Op V); rewrite ?HOp; simpl; auto.
  - unfold visitStructExtractInst.
    replace (kindOf G Op) with (kindOf F Op)
      by (unfold kindOf; rewrite (H1 Op); auto).
    reflexivity.
  - unfold visitEnumInst. destruct P as [p|]; [reflexivity|]. simpl.
    destruct (Hcfg E eq_refl) as (Hpar & Hblk & Hpred).
    assert (HSP : getSinglePredecessor G (getParent G I) =
                  getSinglePredecessor F (getParent F I))
      by (unfold getSinglePredecessor; now rewrite <- Hpar, <- Hblk).
    rewrite HSP, <- Hpar.
    destruct (getSinglePredecessor F (getParent F I)) as [Pred|] eqn:HP; [|reflexivity].
    destruct (Hpred Pred eq_refl) as (HB & HT & HO).
    rewrite <- HB.
    replace (kindOf G (getTerminator (getBlock F Pred)))
      with (kindOf F (getTerminator (getBlock F Pred)))
      by (unfold kindOf; now rewrite HT).
    destruct (kindOf F (getTerminator (getBlock F Pred))) eqn:HTK; try reflexivity.
    replace (typeOf G Operand) with (typeOf F Operand); [now rewrite HtI|].
    unfold typeOf. f_equal. apply HO. unfold isOperandOf. rewrite HTK. simpl. auto.
  - unfold visitUncheckedEnumDataInst.
    replace (kindOf G Op) with (kindOf F Op)
      by (unfold kindOf; rewrite (H1 Op); auto).
    reflexivity.
  - unfold visitAddressToPointerInst, typeOf. rewrite (H1 Op) by auto. reflexivity.
  - unfold visitPointerToAddressInst.
    replace (kindOf G Op) with (kindOf F Op)
      by (unfold kindOf; rewrite (H1 Op); auto).
    rewrite HtI.
    destruct (kindOf F Op) eqn:HOp; try reflexivity;
      (replace (typeOf G Operand) with (typeOf F Operand)
         by (unfold typeOf; rewrite (H2 Op Operand); rewrite ?HOp; simpl; auto));
      reflexivity.
  - unfold visitRefToRawPointerInst.
    replace (kindOf G Op) with (kindOf F Op)
      by (unfold kindOf; rewrite (H1 Op); auto).
    reflexivity.
  - unfold visitUnconditionalCheckedCastInst.
    destruct (bool_decide (K = Downcast)); [|reflexivity].
    rewrite HtI.
    replace (typeOf G Op) with (typeOf F Op)
      by (unfold typeOf; rewrite (H1 Op); auto).
    rewrite (H1 Op) by auto.
    destruct (getDef F Op) as [KOp TOp] eqn:HD.
    assert (HOp : kindOf F Op = KOp) by (unfold kindOf; now rewrite HD).
    destruct KOp; try reflexivity.
    replace (typeOf G Operand) with (typeOf F Operand)
      by (unfold typeOf; rewrite (H2 Op Operand); rewrite ?HOp; simpl; auto).
    reflexivity.
  - unfold visitUncheckedRefCastInst.
    replace (kindOf G Op) with (kindOf F Op)
      by (unfold kindOf; rewrite (H1 Op); auto).
    replace (typeOf G Op) with (typeOf F Op)
      by (unfold typeOf; rewrite (H1 Op); auto).
    rewrite HtI.
    destruct (kindOf F Op) eqn:HOp; try reflexivity;
      (replace (typeOf G Operand) with (typeOf F Operand)
         by (unfold typeOf; rewrite (H2 Op Operand); rewrite ?HOp; simpl; auto));
      reflexivity.
  - unfold visitUncheckedAddrCastInst.
    replace (kindOf G Op) with (kindOf F Op)
      by (unfold kindOf; rewrite (H1 Op); auto).
    replace (typeOf G Op) with (typeOf F Op)
      by (unfold typeOf; rewrite (H1 Op); auto).
    rewrite HtI.
    destruct (kindOf F Op) eqn:HOp; try reflexivity;
      (replace (typeOf G Operand) with (typeOf F Operand)
         by (unfold typeOf; rewrite (H2 Op Operand); rewrite ?HOp; simpl; auto));
      reflexivity.
  - unfold visitUpcastInst.
    replace (kindOf G Op) with (kindOf F Op)
      by (unfold kindOf; rewrite (H1 Op); auto).
    rewrite HtI.
    destruct (kindOf F Op) eqn:HOp; try reflexivity;
      (replace (typeOf G Operand) with (typeOf F Operand)
         by (unfold typeOf; rewrite (H2 Op Operand); rewrite ?HOp; simpl; auto));
      reflexivity.
  - unfold visitApplyInst.
    replace (kindOf G Callee) with (kindOf F Callee)
      by (unfold kindOf; rewrite (H1 Callee); auto).
    destruct (kindOf F Callee); try reflexivity.
    destruct (bool_decide _); [|reflexivity].
    destruct (Args !! 0) as [Arg0|] eqn:HA; [|reflexivity].
    apply lookup_In in HA.
    unfold dyn_cast_IntegerLiteralInst, kindOf. rewrite (H1 Arg0) by auto.
    reflexivity.
Qed.

End Locality.

(** ** The further properties on concrete graphs *)

Lemma extract_of_construct_witness :
  simplifyInstruction hintAndTuple (Val 5) = Returns (Some (Val 1)) /\
  simplifyInstruction hintAndTuple (Val 6) = Aborts /\
  simplifyInstruction hintAndTuple (Val 8) = Returns None.
Proof.
  split; [|split].
  - apply (proj1 (extract_of_construct hintAndTuple Tuple Tuple (Val 5) (Val 4)
                    [Val 0; Val 1] 1 eq_refl eq_refl) eq_refl (Val 1) eq_refl).
  - apply (proj1 (proj2 (extract_of_construct hintAndTuple Tuple Tuple (Val 6) (Val 4)
                           [Val 0; Val 1] 2 eq_refl eq_refl)) eq_refl).
    simpl; lia.
  - apply (proj2 (proj2 (extract_of_construct hintAndTuple Struct Tuple (Val 8) (Val 4)
                           [Val 0; Val 1] 0 eq_refl eq_refl))).
    discriminate.
Defined.

Lemma pointer_to_address_cancels_iff_witness :
  simplifyInstruction casts (Val 16) = Returns (Some (Val 14)).
Proof.
  apply (proj1 (pointer_to_address_cancels_iff casts (Val 16) (Val 15) eq_refl) (Val 14)).
  split; reflexivity.
Defined.

Lemma ref_to_raw_pointer_cancels_iff_witness :
  simplifyInstruction casts (Val 2) = Returns (Some (Val 0)).
Proof.
  apply (ref_to_raw_pointer_cancels_iff casts (Val 2) (Val 1) eq_refl (Val 0)).
  reflexivity.
Defined.

Lemma checked_downcast_of_upcast_iff_witness :
  simplifyInstruction casts (Val 6) = Returns (Some (Val 3)).
Proof.
  apply (checked_downcast_of_upcast_iff casts (Val 6) (Val 4) Downcast eq_refl (Val 3)).
  repeat split; reflexivity.
Defined.

Lemma upcast_of_ref_cast_iff_witness :
  simplifyInstruction casts (Val 9) = Returns (Some (Val 3)).
Proof.
  apply (upcast_of_ref_cast_iff casts (Val 9) (Val 8) eq_refl (Val 3)).
  split; reflexivity.
Defined.

Lemma unchecked_ref_cast_prefers_inner_witness :
  simplifyInstruction casts (Val 5) = Returns (Some (Val 3)) /\
  simplifyInstruction casts (Val 10) = Returns (Some (Val 4)).
Proof.
  split.
  - apply (proj1 (unchecked_ref_cast_prefers_inner casts (Val 5) (Val 4) eq_refl) (Val 3));
      [right|]; reflexivity.
  - apply (proj2 (unchecked_ref_cast_prefers_inner casts (Val 10) (Val 4) eq_refl)).
    intros x [H|H]; vm_compute in H; [discriminate H|].
    injection H as <-. vm_compute. discriminate.
Defined.

Lemma unchecked_addr_cast_prefers_inner_witness :
  simplifyInstruction casts (Val 13) = Returns (Some (Val 0)) /\
  simplifyInstruction casts (Val 12) = Returns None.
Proof.
  split.
  - apply (proj1 (unchecked_addr_cast_prefers_inner casts (Val 13) (Val 12) eq_refl) (Val 0));
      reflexivity.
  - apply (proj2 (unchecked_addr_cast_prefers_inner casts (Val 12) (Val 0) eq_refl)).
    intros x H. vm_compute in H. discriminate H.
Defined.

Lemma apply_folds_only_the_hint_witness :
  simplifyInstruction hintAndTuple (Val 3) = Returns (Some (Val 0)).
Proof.
  apply (apply_folds_only_the_hint hintAndTuple (Val 3) (Val 2) [Val 0; Val 1] eq_refl (Val 0)).
  split; [|split].
  - exists (mkBuiltinRef expect SAddOver). split; reflexivity.
  - reflexivity.
  - exists 1%Z. reflexivity.
Defined.

Lemma payload_extract_iff_witness :
  simplifyInstruction enumPayload (Val 2) = Returns (Some (Val 0)).
Proof.
  apply (payload_extract_iff enumPayload (Val 2) (Val 1) (Elt 1) eq_refl (Val 0)).
  reflexivity.
Defined.

Lemma enum_folds_iff_witness :
  simplifyInstruction switchThenEnum (Val 2) = Returns (Some (Val 0)) /\
  simplifyInstruction switchThenEnum (Val 4) <> Aborts.
Proof.
  split.
  - apply (proj1 (enum_folds_iff switchThenEnum (Val 2) (Elt 0) None eq_refl) (Val 0)).
    split; [reflexivity|].
    exists (BB 0), [(Elt 0, BB 1); (Elt 1, BB 2)]. repeat split; reflexivity.
  - apply (proj2 (enum_folds_iff switchThenEnum (Val 4) (Elt 1) (Some (Val 3)) eq_refl)).
Defined.

Lemma type_guarded_rules_preserve_type_witness :
  typeOf casts (Val 3) = typeOf casts (Val 5).
Proof.
  apply (type_guarded_rules_preserve_type casts (Val 5) (Val 3)); reflexivity.
Defined.

Lemma overflow_fold_depends_on_family_only_witness :
  simplifyInstruction addBothOrders (Val 4) = simplifyInstruction addBothOrders (Val 9).
Proof.
  apply (overflow_fold_depends_on_family_only addBothOrders
           (Val 4) (Val 3) (Val 2) (Val 9) (Val 8) (Val 5) [Val 0; Val 1]
           (mkBuiltinRef sadd_with_overflow (OtherBuiltin 0))
           (mkBuiltinRef not_intrinsic UAddOver));
    reflexivity.
Defined.

Lemma extract_of_call_folds_only_identities_witness :
  exists FR Op1 Op2 Rest,
    kindOf addBothOrders (Val 2) = BuiltinFunctionRefInst FR /\
    is_Some (overflowOpOf FR) /\
    [Val 0; Val 1] = Op1 :: Op2 :: Rest /\
    (Val 1 = Op1 \/ Val 1 = Op2) /\
    (m_Zero addBothOrders Op1 = true \/ m_Zero addBothOrders Op2 = true \/
     m_One addBothOrders Op1 = true \/ m_One addBothOrders Op2 = true).
Proof.
  apply (extract_of_call_folds_only_identities addBothOrders (Val 4) (Val 3) (Val 2) (Val 1)
           [Val 0; Val 1] 0 eq_refl eq_refl eq_refl).
Defined.

Lemma add_mul_fold_commutes_witness :
  simplifyInstruction addBothOrders (Val 4) = simplifyInstruction addBothOrders (Val 7).
Proof.
  apply (add_mul_fold_commutes addBothOrders
           (Val 4) (Val 3) (Val 2) (Val 7) (Val 6) (Val 5) (Val 0) (Val 1) [] []
           (mkBuiltinRef sadd_with_overflow (OtherBuiltin 0))
           (mkBuiltinRef not_intrinsic UAddOver) OvAdd
           eq_refl eq_refl eq_refl eq_refl eq_refl eq_refl eq_refl eq_refl).
  - discriminate.
  - intros [_ H]. vm_compute in H. discriminate H.
  - intros [H _]. vm_compute in H. discriminate H.
Defined.

Lemma only_indexing_rules_assert_witness :
  mayAssert (kindOf enumNoPayload (Val 1)) = true.
Proof.
  apply (only_indexing_rules_assert enumNoPayload (Val 1)). reflexivity.
Defined.

Lemma addZero_agrees_with_addBothOrdersMoved :
  agreeAround addZero addBothOrdersMoved (Val 4).
Proof.
  split.
  - intros V [->|[H|(W & HW & HV)]]; [reflexivity| |].
    + vm_compute in H. destruct H as [<-|[]]. reflexivity.
    + vm_compute in HW. destruct HW as [<-|[]].
      vm_compute in HV. destruct HV as [<-|[<-|[<-|[]]]]; reflexivity.
  - intros tag H. vm_compute in H. discriminate H.
Defined.

Lemma switchThenEnum_agrees_with_switchThenEnumElsewhere :
  agreeAround switchThenEnum switchThenEnumElsewhere (Val 2).
Proof.
  split.
  - intros V HV. reflexivity.
  - intros tag _. split; [reflexivity|]. split; [reflexivity|].
    intros P HP. vm_compute in HP. injection HP as <-.
    split; [reflexivity|]. split; [reflexivity|].
    intros V _. reflexivity.
Defined.

Lemma simplify_reads_two_hops_witness :
  (agreeAround addZero addBothOrdersMoved (Val 4) /\
   getDef addZero (Val 6) <> getDef addBothOrdersMoved (Val 6) /\
   getParent addZero (Val 4) <> getParent addBothOrdersMoved (Val 4) /\
   simplifyInstruction addZero (Val 4) = simplifyInstruction addBothOrdersMoved (Val 4)) /\
  (agreeAround switchThenEnum switchThenEnumElsewhere (Val 2) /\
   getBlock switchThenEnum (BB 2) <> getBlock switchThenEnumElsewhere (BB 2) /\
   simplifyInstruction switchThenEnum (Val 2) =
     simplifyInstruction switchThenEnumElsewhere (Val 2)).
Proof.
  split.
  - split; [exact addZero_agrees_with_addBothOrdersMoved|]. split; [|split].
    + vm_compute. discriminate.
    + vm_compute. discriminate.
    + apply (simplify_reads_two_hops addZero addBothOrdersMoved (Val 4)
               addZero_agrees_with_addBothOrdersMoved).
  - split; [exact switchThenEnum_agrees_with_switchThenEnumElsewhere|]. split.
    + vm_compute. discriminate.
    + apply (simplify_reads_two_hops switchThenEnum switchThenEnumElsewhere (Val 2)
               switchThenEnum_agrees_with_switchThenEnumElsewhere).
Defined.

